(** * manim-ai: the render job pipeline of the api-gateway

    A shallow embedding of the services of [apps/api-gateway/src] that make
    up the render job pipeline, and the properties established about them:

    - [GeminiService.parseGeminiResponse], [cleanManimCode] and
      [fixIndentation]           (services/gemini.service.ts)
    - [UserModel.canGenerateVideos] and [increaseVideoCount]
                                 (models/user.model.ts)
    - [ManimService.generateVideo] and [runManim]
                                 (services/manim.service.ts)
    - [StorageService.getVideoUrl]   (services/storage.service.ts)

    The first part of the file holds the definitions, module by module in
    the order of the source files; the second part holds the lemmas and the
    theorems. *)

From Stdlib Require Import ZArith NArith String Ascii Bool List Lia DecimalString.
From Stdlib Require DecimalN.
From stdpp Require Import base list gmap strings.

(* ===================================================================== *)
(** * Part I: definitions                                                  *)
(* ===================================================================== *)

(** ** JavaScript strings

    A JavaScript string is a sequence of UTF-16 code units.  A code unit is
    an [N]; nothing below depends on the bound 65535.  String literals of
    the source are written [js "..."]; a double quote inside a literal is
    the code unit 34. *)

Module JS.

Local Open Scope N_scope.

Definition jsstring : Type := list N.

Fixpoint js (s : string) : jsstring :=
  match s with
  | EmptyString => []
  | String a s' => N_of_ascii a :: js s'
  end.
Arguments js _%_string.

Definition NL : N := 10.
Definition DQUOTE : N := 34.

(** [WhiteSpace] and [LineTerminator] of ECMAScript: what [String.trim]
    strips and what [\s] matches in a regular expression. *)
Definition isWhiteSpace (c : N) : bool :=
  ((9 <=? c) && (c <=? 13))          (* TAB LF VT FF CR *)
  || (c =? 32) || (c =? 160) || (c =? 5760)
  || ((8192 <=? c) && (c <=? 8202))
  || (c =? 8232) || (c =? 8233) || (c =? 8239) || (c =? 8287)
  || (c =? 12288) || (c =? 65279).

(** [\d] and [\w] of a regular expression without the [u] flag. *)
Definition isDigit (c : N) : bool := (48 <=? c) && (c <=? 57).

Definition isUpper (c : N) : bool := (65 <=? c) && (c <=? 90).
Definition isLower (c : N) : bool := (97 <=? c) && (c <=? 122).

Definition isWordChar (c : N) : bool :=
  isUpper c || isLower c || isDigit c || (c =? 95).

(** Case folding on the letters A-Z.  [toLowerCase] of JavaScript also
    rewrites letters outside ASCII; none of them is mapped to a letter run
    that could complete one of the ASCII words searched for below (the only
    code unit mapped onto an ASCII letter of those words is U+0130, which
    becomes "i" followed by U+0307), so for the tests
    [line.toLowerCase().includes(w)] of the source and for the [i] flag of
    its regular expressions (which never identifies a code unit of 128 or
    more with an ASCII one) this folding decides the same matches. *)
Definition lowerChar (c : N) : N := if isUpper c then c + 32 else c.
Definition toLowerCase (s : jsstring) : jsstring := List.map lowerChar s.

(** [s.startsWith(p)] *)
Fixpoint startsWith (p s : jsstring) : bool :=
  match p, s with
  | [], _ => true
  | _ :: _, [] => false
  | a :: p', b :: s' => (a =? b) && startsWith p' s'
  end.

(** [s.includes(p)] *)
Fixpoint includes (p s : jsstring) : bool :=
  startsWith p s ||
  match s with
  | [] => false
  | _ :: s' => includes p s'
  end.

(** [s.trimStart()], [s.trimEnd()] and [s.trim()] *)
Fixpoint trimStart (s : jsstring) : jsstring :=
  match s with
  | [] => []
  | c :: s' => if isWhiteSpace c then trimStart s' else s
  end.

Fixpoint trimEnd (s : jsstring) : jsstring :=
  match s with
  | [] => []
  | c :: s' =>
      match trimEnd s' with
      | [] => if isWhiteSpace c then [] else [c]
      | t => c :: t
      end
  end.

Definition trim (s : jsstring) : jsstring := trimEnd (trimStart s).

(** [s.split("\n")]: one more piece than there are line feeds. *)
Fixpoint splitNl (s : jsstring) : list jsstring :=
  match s with
  | [] => [[]]
  | c :: s' =>
      if c =? NL then [] :: splitNl s'
      else match splitNl s' with
           | l :: ls => (c :: l) :: ls
           | [] => [[c]]
           end
  end.

(** [lines.join("\n")] *)
Fixpoint joinNl (ls : list jsstring) : jsstring :=
  match ls with
  | [] => []
  | [l] => l
  | l :: ls' => l ++ NL :: joinNl ls'
  end.

(** A string is truthy when it is not empty. *)
Definition truthy (s : jsstring) : bool :=
  match s with [] => false | _ => true end.

(** [parseInt] on a run of decimal digits.  The source compares the result
    with 0 and 300 only and keeps it when it lies in between, where the
    double that JavaScript computes is this integer. *)
Definition digitVal (c : N) : N := c - 48.
Definition parseInt (ds : jsstring) : N :=
  fold_left (fun acc c => 10 * acc + digitVal c) ds 0.

(** The decimal text of a number, as in a template literal or a property
    name. *)
Definition decimal (n : N) : jsstring :=
  js (NilEmpty.string_of_uint (N.to_uint n)).

(** *** The fragments of regular expressions the services use

    A matcher takes the text from the position tried and gives back what
    the pattern leaves unread. *)

(** a literal, compared case-insensitively (the [i] flag) *)
Fixpoint eatCI (lit s : jsstring) : option jsstring :=
  match lit, s with
  | [], _ => Some s
  | _ :: _, [] => None
  | a :: lit', b :: s' =>
      if lowerChar a =? lowerChar b then eatCI lit' s' else None
  end.

(** a literal, compared exactly *)
Fixpoint eat (lit s : jsstring) : option jsstring :=
  match lit, s with
  | [], _ => Some s
  | _ :: _, [] => None
  | a :: lit', b :: s' => if a =? b then eat lit' s' else None
  end.

(** the longest run of code units satisfying [f], and the rest *)
Fixpoint span (f : N -> bool) (s : jsstring) : jsstring * jsstring :=
  match s with
  | [] => ([], [])
  | c :: s' =>
      if f c then let '(run, rest) := span f s' in (c :: run, rest)
      else ([], s)
  end.

(** [text.match(re)] for a pattern without the [g] flag: the match at the
    leftmost position where the pattern matches. *)
Fixpoint search {A} (m : jsstring -> option A) (s : jsstring) : option A :=
  match m s with
  | Some r => Some r
  | None =>
      match s with
      | [] => None
      | _ :: s' => search m s'
      end
  end.

(** [text.match(re)] for a literal, non-empty pattern with the [g] flag:
    every match, left to right, the search resuming behind the previous
    match.  [skip] counts the code units the previous match still covers. *)
Fixpoint matchAllFrom (skip : nat) (lit s : jsstring) : list jsstring :=
  match s with
  | [] => []
  | _ :: s' =>
      match skip with
      | S k => matchAllFrom k lit s'
      | O =>
          if startsWith lit s
          then lit :: matchAllFrom (Nat.pred (length lit)) lit s'
          else matchAllFrom O lit s'
      end
  end.

Definition matchAll (lit s : jsstring) : list jsstring := matchAllFrom O lit s.

(** Shapes of a search word that [trim] and [split] cannot break: it
    begins and ends with a code unit that is not white space, and it holds
    no line feed. *)
Definition startsNonWs (p : jsstring) : bool :=
  match p with
  | [] => false
  | c :: _ => negb (isWhiteSpace c)
  end.

Fixpoint endsNonWs (p : jsstring) : bool :=
  match p with
  | [] => false
  | [c] => negb (isWhiteSpace c)
  | _ :: p' => endsNonWs p'
  end.

Definition noNl (p : jsstring) : bool := forallb (fun c => negb (c =? NL)) p.

(** Capitals for the letters a-z: [toUpperCase] on the ASCII words the
    services apply it to. *)
Definition upperChar (c : N) : N := if isLower c then c - 32 else c.
Definition toUpperCase (s : jsstring) : jsstring := List.map upperChar s.

End JS.

(** ** services/gemini.service.ts: the source normalizer *)

Module GeminiService.

Import JS.
Local Open Scope N_scope.

Record ParsedResponse : Type := {
  code : jsstring;
  description : jsstring;
  estimatedDuration : N
}.

(** [generateFallbackCode]: the template literal, line by line. *)
Definition fallbackLines : list jsstring :=
  [ js "from manim import *";
    [];
    js "class GeneratedAnimation(Scene):";
    js "    def construct(self):";
    js "        # Basic animation fallback";
    js "        text = Text(" ++ [DQUOTE] ++ js "Generated Animation" ++ [DQUOTE] ++ js ")";
    js "        self.play(Write(text))";
    js "        self.wait(2)";
    js "        ";
    js "        circle = Circle(radius=1, color=BLUE)";
    js "        self.play(Create(circle))";
    js "        self.wait(1)";
    js "        ";
    js "        self.play(FadeOut(text), FadeOut(circle))" ].

Definition generateFallbackCode : jsstring := joinNl fallbackLines.

(** [fixIndentation]: the loop over the lines, with its two flags. *)
Fixpoint fixLines (inClass inMethod : bool) (lines : list jsstring)
  : list jsstring :=
  match lines with
  | [] => []
  | line :: rest =>
      if includes (js "class ") line && includes (js "Scene") line then
        line :: fixLines true inMethod rest
      else if includes (js "def construct(self):") line then
        (js "    " ++ trim line) :: fixLines inClass true rest
      else if inMethod && truthy (trim line) then
        (if negb (startsWith (js "        ") line)
            && negb (startsWith (js "    def") line)
         then js "        " ++ trim line
         else line) :: fixLines inClass inMethod rest
      else
        line :: fixLines inClass inMethod rest
  end.

Definition fixIndentation (code : jsstring) : jsstring :=
  joinNl (fixLines false false (splitNl code)).

(** The head of the class skeleton that [cleanManimCode] synthesizes. *)
Definition wrapperHead : jsstring :=
  js "from manim import *" ++ [NL; NL] ++
  js "class GeneratedAnimation(Scene):" ++ [NL] ++
  js "    def construct(self):" ++ [NL].

Definition isBodyLine (line : jsstring) : bool :=
  negb (includes (js "from manim") line)
  && negb (includes (js "import") line)
  && truthy (trim line).

Definition ensureImport (code : jsstring) : jsstring :=
  if negb (includes (js "from manim import") code)
  then js "from manim import *" ++ [NL; NL] ++ code
  else code.

Definition ensureClass (code : jsstring) : jsstring :=
  if negb (includes (js "class ") code) || negb (includes (js "Scene") code)
  then
    let codeLines := List.filter isBodyLine (splitNl code) in
    wrapperHead ++ joinNl (List.map (fun line => js "        " ++ line) codeLines)
  else code.

Definition cleanManimCode (code : jsstring) : jsstring :=
  fixIndentation (ensureClass (ensureImport code)).

(** The three patterns of [codeMatches] are the same literal: a run of six
    backquotes, with the [g] flag.  With that flag [response.match] gives
    the list of all matches, so [match[1]] is the second match. *)
Definition FENCE : jsstring := js "``````".
Definition codeMatches : list jsstring := [FENCE; FENCE; FENCE].

Fixpoint firstCodeMatch (regexes : list jsstring) (response : jsstring)
  : jsstring :=
  match regexes with
  | [] => []
  | regex :: rest =>
      match nth_error (matchAll regex response) 1 with
      | Some m1 => if truthy m1 then trim m1 else firstCodeMatch rest response
      | None => firstCodeMatch rest response
      end
  end.

Definition isPythonLine (line : jsstring) : bool :=
  includes (js "class ") line
  || includes (js "def construct") line
  || includes (js "from manim") line
  || includes (js "import manim") line
  || includes (js "self.play") line
  || includes (js "self.add") line.

Definition pythonLines (response : jsstring) : list jsstring :=
  List.filter isPythonLine (splitNl response).

(** The code before [cleanManimCode]: the fence match, else the lines that
    look like Python, else the fallback script. *)
Definition extractCode (response : jsstring) : jsstring :=
  let code := firstCodeMatch codeMatches response in
  if negb (truthy code) then
    match pythonLines response with
    | _ :: _ => joinNl (pythonLines response)
    | [] => generateFallbackCode
    end
  else code.

(** The three duration patterns, each as a matcher at one position giving
    the digits of its group.
    [/(?:duration|time):\s*(\d+)/i] *)
Definition colonDigits (r : jsstring) : option jsstring :=
  match eat (js ":") r with
  | Some r1 =>
      let '(ds, _) := span isDigit (snd (span isWhiteSpace r1)) in
      if truthy ds then Some ds else None
  | None => None
  end.

Definition durationPattern1 (s : jsstring) : option jsstring :=
  match from_option colonDigits None (eatCI (js "duration") s) with
  | Some ds => Some ds
  | None => from_option colonDigits None (eatCI (js "time") s)
  end.

(** [/(\d+)\s*seconds?/i] *)
Definition durationPattern2 (s : jsstring) : option jsstring :=
  let '(ds, r) := span isDigit s in
  if truthy ds then
    match eatCI (js "second") (snd (span isWhiteSpace r)) with
    | Some _ => Some ds
    | None => None
    end
  else None.

(** [/takes?\s*(\d+)/i] *)
Definition spaceDigits (r : jsstring) : option jsstring :=
  let '(ds, _) := span isDigit (snd (span isWhiteSpace r)) in
  if truthy ds then Some ds else None.

Definition durationPattern3 (s : jsstring) : option jsstring :=
  match eatCI (js "take") s with
  | Some r =>
      match from_option spaceDigits None (eatCI (js "s") r) with
      | Some ds => Some ds
      | None => spaceDigits r
      end
  | None => None
  end.

Definition durationPatterns : list (jsstring -> option jsstring) :=
  [durationPattern1; durationPattern2; durationPattern3].

Definition inBounds (duration : N) : bool :=
  (0 <? duration) && (duration <=? 300).

(** The loop over the patterns: the first pattern whose leftmost match
    holds a value within the bounds decides; otherwise the default. *)
Fixpoint firstDuration (patterns : list (jsstring -> option jsstring))
    (response : jsstring) : N :=
  match patterns with
  | [] => 10
  | pattern :: rest =>
      match search pattern response with
      | Some ds =>
          if truthy ds && inBounds (parseInt ds) then parseInt ds
          else firstDuration rest response
      | None => firstDuration rest response
      end
  end.

Definition isDescriptionLine (line : jsstring) : bool :=
  (20 <? N.of_nat (length (trim line)))
  && negb (includes (js "```") line)
  && negb (includes (js "duration") (toLowerCase line))
  && negb (includes (js "code") (toLowerCase line))
  && truthy (trim line).

Definition defaultDescription : jsstring :=
  js "Mathematical animation generated with Manim".

(** [description.replace(re, empty)] where [re] is a leading run of
    code units that are not word characters *)
Fixpoint stripNonWord (s : jsstring) : jsstring :=
  match s with
  | [] => []
  | c :: s' => if isWordChar c then s else stripNonWord s'
  end.

Definition extractDescription (response : jsstring) : jsstring :=
  let lines := splitNl (trim response) in
  let description :=
    match List.find isDescriptionLine lines with
    | Some line => line
    | None => defaultDescription
    end in
  trim (take 200 (stripNonWord description)).

(** [parseGeminiResponse].  No operation of its [try] block throws on a
    string, so the [catch] branch is never taken and the function is the
    value of the [try] block. *)
Definition parseGeminiResponse (response : jsstring) : ParsedResponse :=
  let code := cleanManimCode (extractCode response) in
  {| code := if truthy code then code else generateFallbackCode;
     description := extractDescription response;
     estimatedDuration := firstDuration durationPatterns response |}.

End GeminiService.

(** ** Results of fallible calls

    A call of the source returns a value or throws an [Error] carrying a
    message; an [async] function that throws rejects its promise, and
    [await] on a rejected promise throws in the caller. *)

Module Outcome.

Import JS.

Inductive outcome (A : Type) : Type :=
  | Return (a : A)
  | Throw (message : jsstring).
Arguments Return {A} a.
Arguments Throw {A} message.

#[export] Instance outcome_ret : MRet outcome := fun A a => Return a.
#[export] Instance outcome_bind : MBind outcome := fun A B k m =>
  match m with
  | Return a => k a
  | Throw e => Throw e
  end.

(** A promise: not settled yet, fulfilled with a value, or rejected with
    an error.  Once settled it keeps its state. *)
Inductive promise (A : Type) : Type :=
  | Pending
  | Fulfilled (value : A)
  | Rejected (message : jsstring).
Arguments Pending {A}.
Arguments Fulfilled {A} value.
Arguments Rejected {A} message.

Definition resolve {A} (value : A) (p : promise A) : promise A :=
  match p with
  | Pending => Fulfilled value
  | _ => p
  end.

Definition reject {A} (message : jsstring) (p : promise A) : promise A :=
  match p with
  | Pending => Rejected message
  | _ => p
  end.

End Outcome.

(** ** models/user.model.ts: the quota gate and the usage counter

    The MongoDB driver is a collaborator.  Its [ObjectId] is a type with a
    decidable equality, and [new ObjectId(s)] is a function [newObjectId]
    that throws on the strings the driver refuses; the definitions take
    both as parameters. *)

Module UserModel.

Import JS Outcome.
Local Open Scope Z_scope.

Inductive SubscriptionPlan : Type := BASIC | INTERMEDIATE | ADVANCED.

(** The string value of each member of the enum. *)
Definition planValue (p : SubscriptionPlan) : jsstring :=
  match p with
  | BASIC => js "basic"
  | INTERMEDIATE => js "intermediate"
  | ADVANCED => js "advanced"
  end.

(** Dates are milliseconds since the epoch; counters are the integers the
    source stores in them. *)
Record ISubscriptionPlan : Type := {
  plan : SubscriptionPlan;
  startDate : Z;
  endDate : option Z;
  isActive : bool;
  videosGenerated : Z;
  maxVideosPerMonth : Z
}.

Record PlanLimit : Type := {
  limitVideosPerMonth : Z;
  maxComplexity : jsstring;
  maxDuration : Z
}.

Definition PLAN_LIMITS (p : SubscriptionPlan) : PlanLimit :=
  match p with
  | BASIC =>
      {| limitVideosPerMonth := 5; maxComplexity := js "basic"; maxDuration := 30 |}
  | INTERMEDIATE =>
      {| limitVideosPerMonth := 20; maxComplexity := js "intermediate"; maxDuration := 60 |}
  | ADVANCED =>
      {| limitVideosPerMonth := 100; maxComplexity := js "advanced"; maxDuration := 120 |}
  end.

(** The result of [canGenerateVideos]. *)
Record Permission : Type := {
  canGenerate : bool;
  reason : option jsstring;
  videosLeft : option Z
}.

(** [list.indexOf(x)]: the first index holding [x], or -1. *)
Fixpoint indexOfFrom (i : Z) (x : jsstring) (l : list jsstring) : Z :=
  match l with
  | [] => -1
  | y :: l' => if decide (x = y) then i else indexOfFrom (i + 1) x l'
  end.

Definition indexOf (l : list jsstring) (x : jsstring) : Z := indexOfFrom 0 x l.

Definition complexityOrder : list jsstring :=
  [js "basic"; js "intermediate"; js "advanced"].

Section WithDriver.

Context {ObjectId : Type} `{EqDecision ObjectId}.
Variable newObjectId : jsstring -> outcome ObjectId.

Record IUser : Type := {
  _id : ObjectId;
  username : jsstring;
  password : jsstring;
  name : jsstring;
  subscription : ISubscriptionPlan;
  createdAt : Z;
  updatedAt : Z;
  lastLoggedIn : option Z
}.

(** The collection "users": its documents in their natural order. *)
Definition Collection : Type := list IUser.

(** The values that stand for [_id] in a filter, as the driver writes
    them: an ObjectId, or an embedded document with its fields in order.
    A filter [{ _id: v }] selects the documents whose [_id] is the same
    value of the same type; every [_id] of the collection is an ObjectId. *)
Inductive IdValue : Type :=
  | OidValue (oid : ObjectId)
  | DocumentValue (fields : list (jsstring * jsstring)).

#[export] Instance IdValue_eq_dec : EqDecision IdValue.
Proof. solve_decision. Defined.

(** [new Object(s)] for a string [s] is a String object.  It is no value
    of the driver's own types, so the driver writes it as the document of
    its enumerable properties: each index with the character there. *)
Definition boxedString (s : jsstring) : IdValue :=
  DocumentValue (imap (fun i ch => (decimal (N.of_nat i), [ch])) s).

Definition matchesId (v : IdValue) (u : IUser) : bool :=
  bool_decide (OidValue (_id u) = v).

(** [collection.findOne({ _id: ... })] *)
Definition findOne (f : IdValue) (c : Collection) : option IUser :=
  List.find (matchesId f) c.

(** [collection.updateOne({ _id: ... }, update)]: the first document that
    matches is updated; without a match nothing is written. *)
Fixpoint updateOne (f : IdValue) (update : IUser -> IUser) (c : Collection)
  : Collection :=
  match c with
  | [] => []
  | u :: c' => if matchesId f u then update u :: c' else u :: updateOne f update c'
  end.

(** [userId] names the document [u] of the collection: the driver accepts
    the string and [findOne] finds [u] under that id. *)
Definition hasAccount (c : Collection) (userId : jsstring) (u : IUser) : Prop :=
  exists oid, newObjectId userId = Return oid /\ findOne (OidValue oid) c = Some u.

(** The two denials and the permission [canGenerateVideos] can return. *)
Definition limitReached : Permission :=
  {| canGenerate := false;
     reason := Some (js "Your montly limit has reached!");
     videosLeft := Some 0 |}.

(** [canGenerateVideos].  The block that computes [currentMonth] has no
    effect on the result and is left out. *)
Definition canGenerateVideos (c : Collection) (userId complexity : jsstring)
  : outcome Permission :=
  oid ← newObjectId userId;
  match findOne (OidValue oid) c with
  | None => Throw (js "User not found!")
  | Some user =>
      if negb (isActive (subscription user)) then
        Throw (js "Your subscription is inactive!")
      else
        let videosThisMonth := videosGenerated (subscription user) in
        let maxVideos := maxVideosPerMonth (subscription user) in
        if videosThisMonth >? maxVideos then
          Return limitReached
        else
          let planLimits := PLAN_LIMITS (plan (subscription user)) in
          let userMaxComplexity := indexOf complexityOrder (maxComplexity planLimits) in
          let requestedComplexity := indexOf complexityOrder complexity in
          if requestedComplexity >? userMaxComplexity then
            Return {| canGenerate := false;
                      reason := Some (js "Complexity " ++ complexity
                                      ++ js " not allowed for "
                                      ++ planValue (plan (subscription user)));
                      videosLeft := None |}
          else
            Return {| canGenerate := true;
                      reason := None;
                      videosLeft := Some (maxVideos - videosThisMonth) |}
  end.

(** The update document of [increaseVideoCount]:
    [$inc] of "subscription.videosGenerated" by 1 and [$set] of
    [updatedAt] to the current date. *)
Definition incrementAndTouch (now : Z) (u : IUser) : IUser :=
  let sub := subscription u in
  {| _id := _id u;
     username := username u;
     password := password u;
     name := name u;
     subscription :=
       {| plan := plan sub;
          startDate := startDate sub;
          endDate := endDate sub;
          isActive := isActive sub;
          videosGenerated := videosGenerated sub + 1;
          maxVideosPerMonth := maxVideosPerMonth sub |};
     createdAt := createdAt u;
     updatedAt := now;
     lastLoggedIn := lastLoggedIn u |}.

(** [increaseVideoCount]: the filter is [{ _id: new Object(userId) }];
    [now] is the value of [new Date()].  The collection after the call. *)
Definition increaseVideoCount (c : Collection) (userId : jsstring) (now : Z)
  : Collection :=
  updateOne (boxedString userId) (incrementAndTouch now) c.

End WithDriver.

Arguments IUser : clear implicits.
Arguments Collection : clear implicits.
Arguments IdValue : clear implicits.

(** [UserResponse]: a document without its password, the id as text. *)
Module Response.

Record UserResponse : Type := {
  _id : jsstring;
  username : jsstring;
  name : jsstring;
  subscription : ISubscriptionPlan;
  createdAt : Z;
  updatedAt : Z;
  lastLoginAt : option Z
}.

End Response.

(** What stands in the field [plan] of the input of [create] when it
    runs: a subscription record, as the interface declares, or the name of
    a plan, a string, which is what [AuthService.signup] passes on from
    the body of the request. *)
Inductive PlanInput : Type :=
  | PlanRecord (record : ISubscriptionPlan)
  | PlanName (planName : jsstring).

(** [userData.plan.plan]: the field of the record; a string has no
    property [plan], and the expression is [undefined]. *)
Definition planField (input : PlanInput) : option SubscriptionPlan :=
  match input with
  | PlanRecord record => Some (plan record)
  | PlanName _ => None
  end.

(** [createUserData] *)
Module NewUser.

Record createUserData : Type := {
  username : jsstring;
  password : jsstring;
  name : jsstring;
  plan : PlanInput
}.

End NewUser.

(** The rest of the class.  Of the driver it needs, besides
    [new ObjectId(s)], the text of an ObjectId ([toString]), and of bcrypt
    the hash of a password for a number of salt rounds. *)
Section Accounts.

Context {ObjectId : Type} `{EqDecision ObjectId}.
Variable newObjectId : jsstring -> outcome ObjectId.
Variable oidToString : ObjectId -> jsstring.
Variable bcryptHash : jsstring -> Z -> jsstring.

Definition saltRounds : Z := 12.

(** [toUserResponse]; [lastLoginAt] is read from [lastLoggedIn]. *)
Definition toUserResponse (user : IUser ObjectId) : Response.UserResponse :=
  {| Response._id := oidToString (_id user);
     Response.username := username user;
     Response.name := name user;
     Response.subscription := subscription user;
     Response.createdAt := createdAt user;
     Response.updatedAt := updatedAt user;
     Response.lastLoginAt := lastLoggedIn user |}.

(** [findByUsername]: [collection.findOne({ username })] *)
Definition findByUsername (c : Collection ObjectId) (wanted : jsstring)
  : option (IUser ObjectId) :=
  List.find (fun u => bool_decide (username u = wanted)) c.

(** [findById]: [null] when no document has the id, and when
    [new ObjectId(id)] throws, which the [catch] block answers. *)
Definition findById (c : Collection ObjectId) (id : jsstring)
  : option Response.UserResponse :=
  match newObjectId id with
  | Return oid => toUserResponse <$> findOne (OidValue oid) c
  | Throw _ => None
  end.

(** What [insertOne] answers: the id the driver gave the document, or an
    error with its code, if it has one. *)
Inductive InsertResult : Type :=
  | Inserted (insertedId : ObjectId)
  | InsertFailed (code : option Z).

(** [create]: the result and the collection afterwards.  [now] is the
    value of [new Date()].  In [userData.plan.plan || BASIC] the left side
    is a member of the enum, a string that is not empty, or [undefined],
    for which the right side stands in. *)
Definition create (c : Collection ObjectId) (userData : NewUser.createUserData)
    (now : Z) (insertOne : InsertResult)
  : outcome Response.UserResponse * Collection ObjectId :=
  match findByUsername c (NewUser.username userData) with
  | Some existingUser =>
      (Throw (js "User with this username already exists"), c)
  | None =>
      let hashedPassword := bcryptHash (NewUser.password userData) saltRounds in
      let plan := default BASIC (planField (NewUser.plan userData)) in
      let newUser (id : ObjectId) : IUser ObjectId :=
        {| _id := id;
           username := NewUser.username userData;
           password := hashedPassword;
           name := NewUser.name userData;
           subscription :=
             {| plan := plan;
                startDate := now;
                endDate := None;
                isActive := true;
                videosGenerated := 0;
                maxVideosPerMonth := limitVideosPerMonth (PLAN_LIMITS plan) |};
           createdAt := now;
           updatedAt := now;
           lastLoggedIn := None |} in
      match insertOne with
      | Inserted insertedId =>
          (Return (toUserResponse (newUser insertedId)), c ++ [newUser insertedId])
      | InsertFailed code =>
          if decide (code = Some 11000) then
            (Throw (js "Username already exists"), c)
          else
            (Throw (js "Unable to create user : "), c)
      end
  end.

(** The update document of [updateLastLogin].  It sets [lastLoginAt] and
    [updatedAt] to the current date.  [lastLoginAt] is no field of the
    interface [IUser], which models the documents (the interface has
    [lastLoggedIn], which no function writes), and no function reads it:
    of this update the documents of the model show [updatedAt]. *)
Definition touch (now : Z) (u : IUser ObjectId) : IUser ObjectId :=
  {| _id := _id u;
     username := username u;
     password := password u;
     name := name u;
     subscription := subscription u;
     createdAt := createdAt u;
     updatedAt := now;
     lastLoggedIn := lastLoggedIn u |}.

Definition updateLastLogin (c : Collection ObjectId) (userId : jsstring) (now : Z)
  : outcome () * Collection ObjectId :=
  match newObjectId userId with
  | Return oid => (Return (), updateOne (OidValue oid) (touch now) c)
  | Throw e => (Throw e, c)
  end.

(** The update document of [updateSubscription]. *)
Definition setPlan (newPlan : SubscriptionPlan) (now : Z) (u : IUser ObjectId)
  : IUser ObjectId :=
  let sub := subscription u in
  {| _id := _id u;
     username := username u;
     password := password u;
     name := name u;
     subscription :=
       {| plan := newPlan;
          startDate := startDate sub;
          endDate := endDate sub;
          isActive := true;
          videosGenerated := videosGenerated sub;
          maxVideosPerMonth := limitVideosPerMonth (PLAN_LIMITS newPlan) |};
     createdAt := createdAt u;
     updatedAt := now;
     lastLoggedIn := lastLoggedIn u |}.

(** [updateSubscription]: [null] when [matchedCount] is 0, else what
    [findById] gives afterwards. *)
Definition updateSubscription (c : Collection ObjectId) (userId : jsstring)
    (newPlan : SubscriptionPlan) (now : Z)
  : outcome (option Response.UserResponse) * Collection ObjectId :=
  match newObjectId userId with
  | Throw e => (Throw e, c)
  | Return oid =>
      let c' := updateOne (OidValue oid) (setPlan newPlan now) c in
      match findOne (OidValue oid) c with
      | None => (Return None, c')
      | Some _ => (Return (findById c' userId), c')
      end
  end.

End Accounts.

End UserModel.

(** ** services/auth.service.ts: signing in *)

Module AuthService.

Import JS Outcome UserModel.

Record SigninData : Type := {
  username : jsstring;
  password : jsstring
}.

(** The payload of the token. *)
Record TokenPayload : Type := {
  userId : jsstring;
  tokenUsername : jsstring;
  plan : SubscriptionPlan
}.

(** [ToBoolean] of an object, which a promise is. *)
Definition objectTruthy {A} (object : promise A) : bool := true.

Section WithCollaborators.

Context {ObjectId : Type} `{EqDecision ObjectId}.
Variable newObjectId : jsstring -> outcome ObjectId.
Variable oidToString : ObjectId -> jsstring.
(** [bcrypt.compare(password, hash)] and [fastify.jwt.sign(payload,
    { expiresIn })] *)
Variable bcryptCompare : jsstring -> jsstring -> bool.
Variable jwtSign : TokenPayload -> jsstring -> jsstring.

(** [UserModel.verifyPassword], an [async] method: its promise. *)
Definition verifyPassword (user : IUser ObjectId) (given : jsstring)
  : promise bool :=
  Fulfilled (bcryptCompare given (UserModel.password user)).

(** [signin].  [isPasswordValid] is the promise of [verifyPassword]: the
    call is not awaited, and the test is on the promise. *)
Definition signin (c : Collection ObjectId) (credentials : SigninData) (now : Z)
  : outcome (option Response.UserResponse * jsstring) * Collection ObjectId :=
  match findByUsername c (username credentials) with
  | None => (Throw (js "Invalid credentials"), c)
  | Some user =>
      let isPasswordValid := verifyPassword user (password credentials) in
      if negb (objectTruthy isPasswordValid) then
        (Throw (js "Password is not valid!"), c)
      else
        match updateLastLogin newObjectId c (oidToString (_id user)) now with
        | (Throw e, c') => (Throw e, c')
        | (Return _, c') =>
            let token :=
              jwtSign {| userId := oidToString (_id user);
                         tokenUsername := UserModel.username user;
                         plan := UserModel.plan (subscription user) |}
                      (js "7d") in
            let UserResponse :=
              findById newObjectId oidToString c' (oidToString (_id user)) in
            (Return (UserResponse, token), c')
        end
  end.

(** [checkVideoPermission] and [incrementUserVideoCount] *)
Definition checkVideoPermission (c : Collection ObjectId)
    (userId complexity : jsstring) : outcome Permission :=
  canGenerateVideos newObjectId c userId complexity.

Definition incrementUserVideoCount (c : Collection ObjectId) (userId : jsstring)
    (now : Z) : Collection ObjectId :=
  increaseVideoCount c userId now.

End WithCollaborators.

(** [SignupData]: the body of the request.  Its [plan], when there is
    one, is the name of a plan by the schema of the route, and a
    subscription record by the interface. *)
Module Signup.

Record SignupData : Type := {
  username : jsstring;
  password : jsstring;
  name : jsstring;
  plan : option PlanInput
}.

End Signup.

(** [userData.plan || SubscriptionPlan.BASIC]: the plan given, unless it
    is missing or the empty string; then the string "basic". *)
Definition planOrBasic (given : option PlanInput) : PlanInput :=
  match given with
  | Some (PlanRecord record) => PlanRecord record
  | Some (PlanName planName) =>
      if truthy planName then PlanName planName else PlanName (js "basic")
  | None => PlanName (js "basic")
  end.

Section SigningUp.

Context {ObjectId : Type} `{EqDecision ObjectId}.
Variable oidToString : ObjectId -> jsstring.
Variable bcryptHash : jsstring -> Z -> jsstring.
Variable jwtSign : TokenPayload -> jsstring -> jsstring.

(** [signup]: the account [create] returns and a token for it; what
    [create] throws is thrown on. *)
Definition signup (c : Collection ObjectId) (userData : Signup.SignupData)
    (now : Z) (insertOne : InsertResult (ObjectId := ObjectId))
  : outcome (Response.UserResponse * jsstring) * Collection ObjectId :=
  match create oidToString bcryptHash c
          {| NewUser.username := Signup.username userData;
             NewUser.password := Signup.password userData;
             NewUser.name := Signup.name userData;
             NewUser.plan := planOrBasic (Signup.plan userData) |}
          now insertOne with
  | (Return user, c') =>
      let token :=
        jwtSign {| userId := Response._id user;
                   tokenUsername := Response.username user;
                   plan := UserModel.plan (Response.subscription user) |}
                (js "7d") in
      (Return (user, token), c')
  | (Throw error, c') => (Throw error, c')
  end.

End SigningUp.

End AuthService.

(** ** plugins/auth.plugin.ts: the plan required by a route *)

Module AuthPlugin.

Import JS UserModel.

(** [request.user], set by [authenticate] from the token. *)
Record RequestUser : Type := {
  userId : jsstring;
  username : jsstring;
  plan : SubscriptionPlan
}.

(** What the hook does with the reply: nothing, or a status code with an
    error and a message. *)
Inductive Reply : Type :=
  | NotSent
  | Sent (code : Z) (error message : jsstring).

Definition planHierarchy (p : SubscriptionPlan) : Z :=
  match p with
  | BASIC => 1
  | INTERMEDIATE => 2
  | ADVANCED => 3
  end.

(** The hook [requirePlan(requiredPlan)] on a request. *)
Definition requirePlan (requiredPlan : SubscriptionPlan)
    (user : option RequestUser) : Reply :=
  match user with
  | None => Sent 401 (js "Unauthorized") (js "Authentication required")
  | Some u =>
      let userPlanLevel := planHierarchy (plan u) in
      let requiredPlanLevel := planHierarchy requiredPlan in
      if (userPlanLevel <? requiredPlanLevel)%Z then
        Sent 403 (js "Forbidden")
          (planValue requiredPlan ++ js " subscription required. Current plan : "
           ++ planValue (plan u))
      else NotSent
  end.

End AuthPlugin.

(** ** services/manim.service.ts: the render executor

    The file system and the renderer are collaborators.  The world holds
    the files and a trace of the calls made; the environment of one
    invocation fixes what the collaborators answer: the error of
    [fs.writeFile] and of [fs.unlink] if they fail, and the events the
    child process and the timer deliver, in the order the event loop
    delivers them. *)

Module ManimService.

Import JS Outcome.

Inductive Quality : Type := low | medium | high.

Record VideoGenerationRequest : Type := {
  code : jsstring;
  complexity : jsstring;
  prompt : jsstring;
  quality : option Quality
}.

Inductive Status : Type := processing | failed | completed.

Record VideoGenerationResponse : Type := {
  videoId : jsstring;
  status : Status;
  videoUrl : option jsstring;
  error : option jsstring
}.

(** What [manimProcess.on] and [setTimeout] can deliver: [close] with the
    exit code ([null] when a signal ended the child), [error], and the
    expiry of the timer of 3000 ms. *)
Inductive ChildEvent : Type :=
  | CloseEvent (exitCode : option Z)
  | ErrorEvent
  | TimerFired.

Record World : Type := {
  files : gmap jsstring jsstring;             (* path to content *)
  unlinkCalls : list jsstring;                (* paths given to fs.unlink *)
  children : list (jsstring * jsstring * jsstring);
                              (* script, quality flag, output of each spawn *)
  console : list jsstring                     (* console.error *)
}.

(** Why [fs.unlink] fails, when it does.  The temporary file is named by
    the millisecond of the clock, so the jobs of one millisecond share it:
    when another of them has removed it already, the unlink finds no file
    and fails with ENOENT.  The other errors of an unlink of a file that
    has just been written refuse the removal and leave the file where it
    is. *)
Inductive Errno : Type := EACCES | EPERM | EBUSY | EROFS.

Inductive UnlinkFailure : Type :=
  | FileMissing
  | UnlinkRefused (code : Errno).

Record Env : Type := {
  cwd : jsstring;                             (* process.cwd() *)
  uuid : jsstring;                            (* uuidv4() *)
  clock : N;                                  (* new Date().getTime() *)
  writeFileError : option jsstring;
  unlinkError : option UnlinkFailure;
  childEvents : list ChildEvent
}.

(** The message of the error of an unlink that finds no file, and of a
    failed unlink in general. *)
Definition enoent (path : jsstring) : jsstring :=
  js "ENOENT: no such file or directory, unlink '" ++ path ++ js "'".

Definition refused (code : Errno) (path : jsstring) : jsstring :=
  match code with
  | EACCES => js "EACCES: permission denied"
  | EPERM => js "EPERM: operation not permitted"
  | EBUSY => js "EBUSY: resource busy or locked"
  | EROFS => js "EROFS: read-only file system"
  end ++ js ", unlink '" ++ path ++ js "'".

Definition unlinkMessage (path : jsstring) (failure : UnlinkFailure) : jsstring :=
  match failure with
  | FileMissing => enoent path
  | UnlinkRefused code => refused code path
  end.

(** Effects: a state of the world and a result or a thrown error. *)
Definition M (A : Type) : Type := World -> outcome A * World.

#[export] Instance M_ret : MRet M := fun A a w => (Return a, w).
#[export] Instance M_bind : MBind M := fun A B k m w =>
  match m w with
  | (Return a, w') => k a w'
  | (Throw e, w') => (Throw e, w')
  end.

(** [try { body } catch (error) { handler }] *)
Definition tryCatch {A} (body : M A) (handler : jsstring -> M A) : M A :=
  fun w =>
    match body w with
    | (Return a, w') => (Return a, w')
    | (Throw e, w') => handler e w'
    end.

Definition fs_writeFile (env : Env) (path data : jsstring) : M () :=
  fun w =>
    match writeFileError env with
    | Some e => (Throw e, w)
    | None =>
        (Return (),
         {| files := <[path := data]> (files w);
            unlinkCalls := unlinkCalls w;
            children := children w;
            console := console w |})
    end.

Definition fs_unlink (env : Env) (path : jsstring) : M () :=
  fun w =>
    let called :=
      {| files := files w;
         unlinkCalls := unlinkCalls w ++ [path];
         children := children w;
         console := console w |} in
    match unlinkError env with
    | Some FileMissing =>
        (* a job of the same millisecond has removed the file *)
        (Throw (enoent path),
         {| files := delete path (files w);
            unlinkCalls := unlinkCalls called;
            children := children w;
            console := console w |})
    | Some (UnlinkRefused code) => (Throw (refused code path), called)
    | None =>
        match files w !! path with
        | None => (Throw (enoent path), called)
        | Some _ =>
            (Return (),
             {| files := delete path (files w);
                unlinkCalls := unlinkCalls called;
                children := children w;
                console := console w |})
        end
    end.

Definition console_error (message : jsstring) : M () :=
  fun w =>
    (Return (),
     {| files := files w;
        unlinkCalls := unlinkCalls w;
        children := children w;
        console := console w ++ [message] |}).

(** [path.join(dir, name)] for a directory path and a file name. *)
Definition path_join (dir name : jsstring) : jsstring := dir ++ js "/" ++ name.

Definition tempDir (env : Env) : jsstring := path_join (cwd env) (js "tmp").
Definition outDir (env : Env) : jsstring := path_join (cwd env) (js "out").

(** [getQualityFlag]; the request's type admits these three names only,
    for which the table has an entry. *)
Definition getQualityFlag (q : Quality) : jsstring :=
  match q with
  | low => js "-ql"
  | medium => js "-qm"
  | high => js "-qh"
  end.

(** The handlers that [runManim] installs, as the effect of one event on
    the promise it returns. *)
Definition onEvent (outputPath : jsstring) (p : promise jsstring)
    (e : ChildEvent) : promise jsstring :=
  match e with
  | CloseEvent exitCode =>
      if decide (exitCode = Some 0%Z) then resolve outputPath p
      else reject (js "Manim process failed with code") p
  | ErrorEvent => reject (js "Failed to start manim process") p
  | TimerFired => reject (js "Video generation timeout") p
  end.

(** The state of the promise of [runManim] after the events delivered.
    The class name and the quality flag are arguments of the child
    process; they decide what the child does, which the events stand for,
    and have no other part in the promise. *)
Definition runManimPromise (env : Env) (videoId : jsstring)
    (events : list ChildEvent) : promise jsstring :=
  let outputPath := path_join (outDir env) (videoId ++ js ".mp4") in
  fold_left (onEvent outputPath) events Pending.

(** [runManim]: spawns the child and returns the promise at once. *)
Definition runManim (env : Env) (pythonFilePath qualityFlag videoId : jsstring)
  : M (list ChildEvent -> promise jsstring) :=
  fun w =>
    let outputPath := path_join (outDir env) (videoId ++ js ".mp4") in
    (Return (runManimPromise env videoId),
     {| files := files w;
        unlinkCalls := unlinkCalls w;
        children := children w ++ [(pythonFilePath, qualityFlag, outputPath)];
        console := console w |}).

(** [generateVideo].  [outputPath] is bound to the promise of [runManim]
    and is not awaited: the function goes on to [fs.unlink] and to its
    [return] without looking at it. *)
Definition generateVideo (env : Env) (request : VideoGenerationRequest)
  : World -> VideoGenerationResponse * World :=
  fun w =>
    let videoId := uuid env in
    let timestamp := clock env in
    let run : M VideoGenerationResponse :=
      tryCatch
        (let pythonFileName := js "animation_" ++ decimal timestamp ++ js ".py" in
         let pythonFilePath := path_join (tempDir env) pythonFileName in
         _ ← fs_writeFile env pythonFilePath (code request);
         let qualityFlag := getQualityFlag (default medium (quality request)) in
         outputPath ← runManim env pythonFilePath qualityFlag videoId;
         _ ← fs_unlink env pythonFilePath;
         mret {| videoId := videoId;
                 status := completed;
                 videoUrl := Some (js "/api/videos/" ++ videoId ++ js ".mp4");
                 error := None |})
        (fun message =>
           _ ← console_error message;
           mret {| videoId := videoId;
                   status := failed;
                   videoUrl := None;
                   error := Some message |}) in
    match run w with
    | (Return r, w') => (r, w')
    | (Throw message, w') =>
        (* not reached: the handler does not throw *)
        ({| videoId := videoId; status := failed;
            videoUrl := None; error := Some message |}, w')
    end.

(** The temporary source file of an invocation. *)
Definition sourcePath (env : Env) : jsstring :=
  path_join (tempDir env) (js "animation_" ++ decimal (clock env) ++ js ".py").

End ManimService.

(** ** services/storage.service.ts: the retrieval URL

    The MinIO client is a collaborator: a call of [presignedGetObject]
    throws at once, or returns a promise that the client fulfils with the
    URL or rejects. *)

Module StorageService.

Import JS Outcome.

Inductive ClientCall : Type :=
  | ThrowsAtCall (message : jsstring)
  | ReturnsPromise (p : promise jsstring).

Definition objectName (videoId userId : jsstring) : jsstring :=
  js "videos/" ++ userId ++ js "/" ++ videoId ++ js ".mp4".

Section WithClient.

Variable presignedGetObject : jsstring -> jsstring -> Z -> ClientCall.
Variable bucketName : jsstring.

(** [getVideoUrl]: the promise the [async] function hands to its caller.
    Inside [try] the client is called and its promise returned without
    [await]; the promise of the function takes the state of that promise.
    Only an error thrown by the call itself reaches [catch]. *)
Definition getVideoUrl (videoId userId : jsstring) (expirySeconds : option Z)
  : promise jsstring :=
  let expiry := default 3600%Z expirySeconds in
  match presignedGetObject bucketName (objectName videoId userId) expiry with
  | ReturnsPromise url => url
  | ThrowsAtCall _ => Fulfilled []
  end.

End WithClient.

(** The other operations.  A call of the client or of [fs] throws at once
    or returns a promise; what it throws or rejects with is an [Error]
    with a message.  [await] on it inside [try] goes on with the value, or
    reaches [catch] with the error, or never returns. *)
Inductive Call (A : Type) : Type :=
  | CallThrows (message : jsstring)
  | CallReturns (p : promise A).
Arguments CallThrows {A} message.
Arguments CallReturns {A} p.

Definition awaited {A} (c : Call A) : promise A :=
  match c with
  | CallThrows e => Rejected e
  | CallReturns p => p
  end.

(** The body of an [async] function up to its next [await], and
    [try]/[catch] around awaited calls. *)
Definition andThen {A B} (p : promise A) (k : A -> promise B) : promise B :=
  match p with
  | Pending => Pending
  | Fulfilled a => k a
  | Rejected e => Rejected e
  end.

Definition catching {A} (p : promise A) (handler : jsstring -> promise A)
  : promise A :=
  match p with
  | Rejected e => handler e
  | _ => p
  end.

(** [fs.Stats] and the client's [BucketItemStat], as far as they are
    read. *)
Record Stats : Type := { size : N }.

Record BucketItemStat : Type := {
  statSize : N;
  lastModified : Z;
  etag : jsstring;
  metaData : gmap jsstring jsstring
}.

Module Upload.

Record UploadResult : Type := {
  success : bool;
  objectName : jsstring;
  url : jsstring;
  size : N;
  error : option jsstring
}.

End Upload.

Module Download.

Record DownloadResult : Type := {
  success : bool;
  stream : option jsstring;
  metadata : option BucketItemStat;
  error : option jsstring
}.

End Download.

(** The object [getVideoMetadata] returns. *)
Module Metadata.

Record MetadataResult : Type := {
  success : bool;
  size : option N;
  lastModified : option Z;
  etag : option jsstring;
  metadata : option (gmap jsstring jsstring);
  error : option jsstring
}.

End Metadata.

(** The metadata [uploadVideo] sends: the standard entries, then the
    caller's, which replace the standard ones of the same key.
    [createdAt] is [new Date().toISOString()]. *)
Definition standardMetaData (videoId userId createdAt : jsstring) (fileSize : N)
  : gmap jsstring jsstring :=
  <[js "Content-Type" := js "video/mp4"]>
  (<[js "x-amz-meta-user-id" := userId]>
  (<[js "x-amz-meta-video-id" := videoId]>
  (<[js "x-amz-meta-created-at" := createdAt]>
  (<[js "x-amz-meta-file-size" := decimal fileSize]> ∅)))).

Definition uploadMetaData (videoId userId createdAt : jsstring) (fileSize : N)
    (metadata : gmap jsstring jsstring) : gmap jsstring jsstring :=
  metadata ∪ standardMetaData videoId userId createdAt fileSize.

Section WithStore.

Variable fsStat : jsstring -> Call Stats.
Variable statObject : jsstring -> jsstring -> Call BucketItemStat.
Variable getObject : jsstring -> jsstring -> Call jsstring.
Variable fPutObject :
  jsstring -> jsstring -> jsstring -> gmap jsstring jsstring -> Call ().
Variable removeObject : jsstring -> jsstring -> Call ().
Variable presignedGetObject : jsstring -> jsstring -> Z -> ClientCall.
Variable bucketName : jsstring.

(** [uploadVideo]; [metadata] is the empty object when the caller gives
    none. *)
Definition uploadVideo (localFilePath videoId userId : jsstring)
    (metadata : gmap jsstring jsstring) (createdAt : jsstring)
  : promise Upload.UploadResult :=
  catching
    (let object := objectName videoId userId in
     andThen (awaited (fsStat localFilePath)) (fun stats =>
     let metaData :=
       uploadMetaData videoId userId createdAt (size stats) metadata in
     andThen (awaited (fPutObject bucketName object localFilePath metaData))
       (fun result =>
     andThen (getVideoUrl presignedGetObject bucketName videoId userId None)
       (fun url =>
     Fulfilled {| Upload.success := true;
                  Upload.objectName := object;
                  Upload.url := url;
                  Upload.size := size stats;
                  Upload.error := None |}))))
    (fun message =>
       Fulfilled {| Upload.success := false;
                    Upload.objectName := [];
                    Upload.url := [];
                    Upload.size := 0;
                    Upload.error := Some message |}).

(** [getVideoStream].  The test [!stat] is on an object and never holds. *)
Definition getVideoStream (videoId userId : jsstring)
  : promise Download.DownloadResult :=
  catching
    (let object := objectName videoId userId in
     andThen (awaited (statObject bucketName object)) (fun stat =>
     andThen (awaited (getObject bucketName object)) (fun stream =>
     Fulfilled {| Download.success := true;
                  Download.stream := Some stream;
                  Download.metadata := Some stat;
                  Download.error := None |})))
    (fun message =>
       Fulfilled {| Download.success := false;
                    Download.stream := None;
                    Download.metadata := None;
                    Download.error := Some message |}).

(** [getVideoMetadata] *)
Definition getVideoMetadata (videoId userId : jsstring)
  : promise Metadata.MetadataResult :=
  catching
    (andThen (awaited (statObject bucketName (objectName videoId userId)))
       (fun stat =>
     Fulfilled {| Metadata.success := true;
                  Metadata.size := Some (statSize stat);
                  Metadata.lastModified := Some (lastModified stat);
                  Metadata.etag := Some (etag stat);
                  Metadata.metadata := Some (metaData stat);
                  Metadata.error := None |}))
    (fun message =>
       Fulfilled {| Metadata.success := false;
                    Metadata.size := None;
                    Metadata.lastModified := None;
                    Metadata.etag := None;
                    Metadata.metadata := None;
                    Metadata.error := Some message |}).

(** [deleteVideo] *)
Definition deleteVideo (videoId userId : jsstring) : promise bool :=
  catching
    (andThen (awaited (removeObject bucketName (objectName videoId userId)))
       (fun result => Fulfilled true))
    (fun message => Fulfilled false).

End WithStore.

End StorageService.

(** ** Concrete inputs

    A driver, accounts, requests and environments on which the functions
    above are evaluated in the second part. *)

Module Sample.

Import JS Outcome.

Definition isHexDigit (c : N) : bool :=
  (isDigit c || ((97 <=? c) && (c <=? 102)) || ((65 <=? c) && (c <=? 70)))%N.

(** A driver whose ObjectIds are the strings of 24 hexadecimal digits. *)
Definition newObjectId (s : jsstring) : outcome jsstring :=
  if (length s =? 24)%nat && forallb isHexDigit s
  then Return (toLowerCase s)
  else Throw (js "input must be a 24 character hex string").

Definition userId : jsstring := js "507f1f77bcf86cd799439011".

(** An account with the given counter, maximum, activity and plan. *)
Definition account (generated maxVideos : Z) (active : bool)
    (p : UserModel.SubscriptionPlan) : UserModel.IUser jsstring :=
  {| UserModel._id := userId;
     UserModel.username := js "alice";
     UserModel.password := js "$2b$12$hash";
     UserModel.name := js "Alice";
     UserModel.subscription :=
       {| UserModel.plan := p;
          UserModel.startDate := 1700000000000;
          UserModel.endDate := None;
          UserModel.isActive := active;
          UserModel.videosGenerated := generated;
          UserModel.maxVideosPerMonth := maxVideos |};
     UserModel.createdAt := 1700000000000;
     UserModel.updatedAt := 1700000000000;
     UserModel.lastLoggedIn := None |}.

(** A script inside a fenced block, as the prompt asks the model to
    answer. *)
Definition demoScript : jsstring :=
  joinNl [ js "from manim import *";
           [];
           js "class Demo(Scene):";
           js "    def construct(self):";
           js "        self.wait(1)" ].

Definition fencedDemo : jsstring :=
  js "```python" ++ [NL] ++ demoScript ++ [NL] ++ js "```".

(** An invocation of the render executor. *)
Definition request : ManimService.VideoGenerationRequest :=
  {| ManimService.code := demoScript;
     ManimService.complexity := js "basic";
     ManimService.prompt := js "draw a circle";
     ManimService.quality := None |}.

Definition env (writeError : option jsstring)
    (unlinkError : option ManimService.UnlinkFailure)
    (events : list ManimService.ChildEvent) : ManimService.Env :=
  {| ManimService.cwd := js "/srv/api-gateway";
     ManimService.uuid := js "3f2b8c1e-5d4a-4e6f-9a7b-0c1d2e3f4a5b";
     ManimService.clock := 1700000000000;
     ManimService.writeFileError := writeError;
     ManimService.unlinkError := unlinkError;
     ManimService.childEvents := events |}.

Definition emptyWorld : ManimService.World :=
  {| ManimService.files := ∅;
     ManimService.unlinkCalls := [];
     ManimService.children := [];
     ManimService.console := [] |}.

(** A client whose promise is rejected, as when the expiry is out of the
    range the client signs or the region of the bucket cannot be read; and
    a client that signs every key. *)
Definition rejectingClient (bucket object : jsstring) (expiry : Z)
  : StorageService.ClientCall :=
  StorageService.ReturnsPromise
    (Rejected (js "expires param cannot be greater than 7 days")).

Definition signingClient (bucket object : jsstring) (expiry : Z)
  : StorageService.ClientCall :=
  StorageService.ReturnsPromise
    (Fulfilled (js "http://minio:9000/" ++ bucket ++ js "/" ++ object
                ++ js "?X-Amz-Signature=0123abcd")).

(** The text of an id of the sample driver, which is the id; a hash that
    marks the password, and a comparison that accepts no password; the
    token as the text of the user id behind a mark. *)
Definition oidText (oid : jsstring) : jsstring := oid.

Definition markHash (given : jsstring) (rounds : Z) : jsstring :=
  js "$2b$12$" ++ given.

Definition compareNever (given hash : jsstring) : bool := false.

Definition tokenOf (payload : AuthService.TokenPayload) (expiresIn : jsstring)
  : jsstring :=
  js "jwt." ++ AuthService.userId payload ++ js "." ++ expiresIn.

Definition bob : UserModel.NewUser.createUserData :=
  {| UserModel.NewUser.username := js "bob";
     UserModel.NewUser.password := js "secret";
     UserModel.NewUser.name := js "Bob";
     UserModel.NewUser.plan := UserModel.PlanName (js "intermediate") |}.

Definition bobId : jsstring := js "507f1f77bcf86cd799439012".

(** Calls of the storage client and of [fs]. *)
Definition statOk (path : jsstring) : StorageService.Call StorageService.Stats :=
  StorageService.CallReturns (Fulfilled {| StorageService.size := 2048 |}).

Definition putOk (bucket object path : jsstring)
    (metaData : gmap jsstring jsstring) : StorageService.Call () :=
  StorageService.CallReturns (Fulfilled ()).

Definition throwingPresign (bucket object : jsstring) (expiry : Z)
  : StorageService.ClientCall :=
  StorageService.ThrowsAtCall (js "Invalid bucket name").

Definition statMissing (bucket object : jsstring)
  : StorageService.Call StorageService.BucketItemStat :=
  StorageService.CallReturns (Rejected (js "Not Found")).

Definition getMissing (bucket object : jsstring) : StorageService.Call jsstring :=
  StorageService.CallReturns (Rejected (js "The specified key does not exist.")).

Definition removeOk (bucket object : jsstring) : StorageService.Call () :=
  StorageService.CallReturns (Fulfilled ()).

End Sample.

(** ** services/gemini.service.ts: the request to the generative model

    The generative model is a collaborator: handed the prompt it replies
    with a text, or the call throws an [Error] with a message or a value
    that is no [Error]. *)

Module GeminiGeneration.

Import JS Outcome.

Inductive Complexity : Type := basic | intermediate | advanced.

Definition complexityValue (c : Complexity) : jsstring :=
  match c with
  | basic => js "basic"
  | intermediate => js "intermediate"
  | advanced => js "advanced"
  end.

Record ManimCodeRequest : Type := {
  prompt : jsstring;
  complexity : Complexity;
  userPlan : UserModel.SubscriptionPlan
}.

(** The field [complexity] of the response is [responseComplexity] here,
    the name being taken by the request. *)
Record ManimCodeResponse : Type := {
  success : bool;
  code : jsstring;
  description : jsstring;
  responseComplexity : jsstring;
  estimatedDuration : N;
  error : option jsstring
}.

Inductive Thrown : Type :=
  | ErrorThrown (message : jsstring)
  | ValueThrown.

Inductive ModelReply : Type :=
  | Replies (text : jsstring)
  | Fails (thrown : Thrown).

(** [basePrompt], line by line. *)
Definition basePrompt : jsstring :=
  joinNl
    [ js "You are a Manim (Mathematical Animation Engine) expert. Generate clean, executable Manim Community Edition code that creates educational mathematical animations.";
      [];
      js "CRITICAL REQUIREMENTS:";
      js "- Use only Manim Community Edition syntax (from manim import *" ++ js ")";
      js "- Create a Scene class that inherits from Scene";
      js "- Use construct() method for the animation";
      js "- Include proper imports and class structure";
      js "- Make animations educational and visually clear";
      js "- Add comments explaining key steps";
      js "- Ensure code is production-ready and error-free";
      [];
      js "RESPONSE FORMAT:";
      js "1. Brief description of the animation (2-3 sentences)";
      js "2. Python code block wrapped in ```python and ```";
      js "3. Estimated duration in seconds";
      [];
      js "TECHNICAL CONSTRAINTS:" ].

(** The entries of [complexityInstructions]. *)
Definition complexityBasic : jsstring :=
  joinNl
    [ [];
      js "- Keep animations simple (3-5 objects max)";
      js "- Use basic shapes: Circle, Square, Rectangle, Text, NumberLine";
      js "- Simple transformations: FadeIn, FadeOut, Transform";
      js "- Duration: 5-15 seconds";
      js "- Focus on single concept visualization" ].

Definition complexityIntermediate : jsstring :=
  joinNl
    [ [];
      js "- Moderate complexity (5-10 objects)";
      js "- Mathematical objects: Axes, Graph, NumberPlane, MathTex";
      js "- Transformations: ReplacementTransform, Write, DrawBorderThenFill";
      js "- Duration: 15-30 seconds";
      js "- Can show step-by-step processes" ].

Definition complexityAdvanced : jsstring :=
  joinNl
    [ [];
      js "- Complex visualizations (10+ objects)";
      js "- Advanced features: ValueTracker, updater functions, 3D scenes";
      js "- Complex transformations: morphing, parametric animations";
      js "- Duration: 30-60 seconds";
      js "- Multi-step educational content" ].

Definition complexityInstructions (c : Complexity) : jsstring :=
  match c with
  | basic => complexityBasic
  | intermediate => complexityIntermediate
  | advanced => complexityAdvanced
  end.

(** The entries of [planLimitations]. *)
Definition planBasic : jsstring :=
  joinNl
    [ [];
      js "- Maximum 30 seconds animation";
      js "- No 3D scenes";
      js "- Basic color schemes only" ].

Definition planIntermediate : jsstring :=
  joinNl
    [ [];
      js "- Maximum 60 seconds animation";
      js "- Can use 3D scenes";
      js "- Advanced color schemes and styling" ].

Definition planAdvanced : jsstring :=
  joinNl
    [ [];
      js "- Maximum 120 seconds animation  ";
      js "- Full 3D capabilities";
      js "- Custom styling and advanced features";
      js "- Can use plugins and external libraries" ].

Definition planLimitations (p : UserModel.SubscriptionPlan) : jsstring :=
  match p with
  | UserModel.BASIC => planBasic
  | UserModel.INTERMEDIATE => planIntermediate
  | UserModel.ADVANCED => planAdvanced
  end.

(** [buildSystemPrompt] *)
Definition buildSystemPrompt (c : Complexity) (p : UserModel.SubscriptionPlan)
  : jsstring :=
  basePrompt ++ [NL; NL] ++ js "COMPLEXITY LEVEL: "
  ++ toUpperCase (complexityValue c) ++ [NL]
  ++ complexityInstructions c ++ [NL; NL] ++ js "USER PLAN LIMITATIONS: "
  ++ toUpperCase (UserModel.planValue p) ++ [NL]
  ++ planLimitations p.

(** The text [generateManimCode] hands to the model. *)
Definition fullPrompt (request : ManimCodeRequest) : jsstring :=
  buildSystemPrompt (complexity request) (userPlan request)
  ++ [NL; NL] ++ js "User Request: " ++ prompt request
  ++ [NL; NL] ++ js "Generate the Manim animation code:".

(** [error instanceof Error ? error.message : "Failed to generate Manim
    code"] *)
Definition errorMessage (t : Thrown) : jsstring :=
  match t with
  | ErrorThrown message => message
  | ValueThrown => js "Failed to generate Manim code"
  end.

(** [generateManimCode]: the value its promise is fulfilled with.  The
    [try] block asks the model and parses the reply; whatever is thrown
    there reaches the [catch] block. *)
Definition generateManimCode (generateContent : jsstring -> ModelReply)
    (request : ManimCodeRequest) : ManimCodeResponse :=
  match generateContent (fullPrompt request) with
  | Replies generatedText =>
      let parsed := GeminiService.parseGeminiResponse generatedText in
      {| success := true;
         code := GeminiService.code parsed;
         description := GeminiService.description parsed;
         responseComplexity := complexityValue (complexity request);
         estimatedDuration := GeminiService.estimatedDuration parsed;
         error := None |}
  | Fails thrown =>
      {| success := false;
         code := [];
         description := [];
         responseComplexity := complexityValue (complexity request);
         estimatedDuration := 0;
         error := Some (errorMessage thrown) |}
  end.

End GeminiGeneration.

(* ===================================================================== *)
(** * Part II: lemmas and theorems                                         *)
(* ===================================================================== *)

(** ** Facts about JavaScript strings *)

Section StringFacts.

Import JS.
Local Open Scope N_scope.

Lemma startsWith_app (p s b : jsstring) :
  startsWith p s = true -> startsWith p (s ++ b) = true.
Proof.
  revert s; induction p as [|a p IH]; intros [|c s]; simpl; try done.
  intros [-> H]%andb_prop. by rewrite IH.
Qed.

Lemma includes_cons (p s : jsstring) (c : N) :
  includes p s = true -> includes p (c :: s) = true.
Proof. intros H. simpl. rewrite H. apply orb_true_r. Qed.

Lemma includes_app_l (p a s : jsstring) :
  includes p s = true -> includes p (a ++ s) = true.
Proof.
  intros H. induction a as [|c a IH]; [done|].
  rewrite <- app_comm_cons. by apply includes_cons.
Qed.

Lemma includes_app_r (p s b : jsstring) :
  includes p s = true -> includes p (s ++ b) = true.
Proof.
  induction s as [|c s IH]; simpl.
  - rewrite orb_false_r. destruct p; [|done]. intros _.
    destruct b; done.
  - intros [H|H]%orb_prop.
    + change (c :: s ++ b) with ((c :: s) ++ b).
      by rewrite (startsWith_app _ _ _ H).
    + rewrite (IH H). apply orb_true_r.
Qed.

Lemma includes_nil (p : jsstring) : includes p [] = true -> p = [].
Proof. by destruct p. Qed.

Lemma includes_truthy (p s : jsstring) :
  truthy p = true -> includes p s = true -> truthy s = true.
Proof. destruct s; [|done]. intros Hp ->%includes_nil. done. Qed.

Lemma includes_joinNl (p l : jsstring) (ls : list jsstring) :
  In l ls -> includes p l = true -> includes p (joinNl ls) = true.
Proof.
  intros Hin Hp. induction ls as [|l0 ls IH]; [done|].
  destruct Hin as [->|Hin].
  - destruct ls; [done|]. by apply includes_app_r.
  - destruct ls as [|l1 ls]; [done|].
    change (joinNl (l0 :: l1 :: ls)) with (l0 ++ NL :: joinNl (l1 :: ls)).
    apply includes_app_l, includes_cons, IH, Hin.
Qed.

Lemma splitNl_nonempty (s : jsstring) : exists l ls, splitNl s = l :: ls.
Proof.
  induction s as [|c s (l & ls & IH)]; simpl; [by eauto|].
  destruct (c =? NL); [by eauto|]. rewrite IH. by eauto.
Qed.

Lemma startsWith_splitNl (p s : jsstring) :
  noNl p = true -> startsWith p s = true ->
  exists l ls, splitNl s = l :: ls /\ startsWith p l = true.
Proof.
  revert s; induction p as [|a p IH]; intros s Hnl Hp.
  - destruct (splitNl_nonempty s) as (l & ls & ->). by eauto.
  - destruct s as [|c s]; [done|]. simpl in Hp, Hnl.
    apply andb_prop in Hp as [Hac Hp]. apply andb_prop in Hnl as [Ha Hnl].
    apply N.eqb_eq in Hac as <-.
    destruct (IH s Hnl Hp) as (l & ls & Hs & Hl).
    simpl. apply negb_true_iff in Ha. rewrite Ha, Hs.
    exists (a :: l), ls. split; [done|]. simpl. by rewrite N.eqb_refl.
Qed.

Lemma includes_splitNl (p s : jsstring) :
  noNl p = true -> includes p s = true ->
  exists l, In l (splitNl s) /\ includes p l = true.
Proof.
  intros Hnl. induction s as [|c s IH]; intros Hp.
  - apply includes_nil in Hp as ->. exists []. split; [by left|done].
  - simpl in Hp. apply orb_prop in Hp as [Hp|Hp].
    + destruct (startsWith_splitNl _ _ Hnl Hp) as (l & ls & Hs & Hl).
      exists l. rewrite Hs. split; [by left|].
      destruct l; simpl; by rewrite Hl.
    + destruct (IH Hp) as (l & Hin & Hl). simpl.
      destruct (c =? NL); [exists l; split; [by right|done]|].
      destruct (splitNl s) as [|l0 ls]; [done|].
      destruct Hin as [->|Hin].
      * exists (c :: l). split; [by left|by apply includes_cons].
      * exists l. split; [by right|done].
Qed.

Lemma includes_trimStart (p s : jsstring) :
  startsNonWs p = true -> includes p s = true ->
  includes p (trimStart s) = true.
Proof.
  intros Hp. induction s as [|c s IH]; [done|].
  intros H. simpl. destruct (isWhiteSpace c) eqn:Hc; [|done].
  apply IH. simpl in H. apply orb_prop in H as [H|H]; [|done].
  destruct p as [|a p]; [done|]. simpl in H, Hp.
  apply andb_prop in H as [->%N.eqb_eq _]. by rewrite Hc in Hp.
Qed.

Lemma startsWith_trimEnd (p s : jsstring) :
  endsNonWs p = true -> startsWith p s = true ->
  startsWith p (trimEnd s) = true.
Proof.
  revert s; induction p as [|a p IH]; intros s Hp H; [done|].
  destruct s as [|c s]; [done|]. simpl in H.
  apply andb_prop in H as [->%N.eqb_eq H].
  destruct p as [|b p].
  - simpl in Hp. apply negb_true_iff in Hp. simpl. rewrite Hp.
    destruct (trimEnd s); simpl; by rewrite N.eqb_refl.
  - specialize (IH s Hp H). simpl.
    destruct (trimEnd s) as [|d t]; [done|].
    simpl. rewrite N.eqb_refl. exact IH.
Qed.

Lemma includes_trimEnd (p s : jsstring) :
  endsNonWs p = true -> includes p s = true ->
  includes p (trimEnd s) = true.
Proof.
  intros Hp. induction s as [|c s IH]; [done|].
  intros H. simpl in H. apply orb_prop in H as [H|H].
  - pose proof (startsWith_trimEnd _ _ Hp H) as H'.
    destruct (trimEnd (c :: s)); simpl; by rewrite H'.
  - specialize (IH H). simpl.
    destruct (trimEnd s) as [|d t] eqn:Ht.
    + apply includes_nil in IH. by subst p.
    + by apply includes_cons.
Qed.

Lemma includes_trim (p s : jsstring) :
  startsNonWs p = true -> endsNonWs p = true ->
  includes p s = true -> includes p (trim s) = true.
Proof.
  intros H1 H2 H. by apply includes_trimEnd, includes_trimStart.
Qed.

End StringFacts.

(** ** The source normalizer *)

Section NormalizerFacts.

Import JS GeminiService.
Local Open Scope N_scope.

(** Whatever branch the loop of [fixIndentation] takes on a line, the line
    it emits is that line, or its trimmed text behind four or eight
    spaces. *)
Lemma fixLines_cons (ic im : bool) (line : jsstring) (rest : list jsstring) :
  exists h ic' im',
    fixLines ic im (line :: rest) = h :: fixLines ic' im' rest
    /\ (h = line \/ h = js "    " ++ trim line \/ h = js "        " ++ trim line).
Proof.
  cbn [fixLines].
  repeat match goal with
         | |- context [if ?b then _ else _] => destruct b
         end; eauto 8.
Qed.

Lemma fixLines_includes (p : jsstring) (lines : list jsstring) :
  startsNonWs p = true -> endsNonWs p = true ->
  forall ic im l, In l lines -> includes p l = true ->
  exists l', In l' (fixLines ic im lines) /\ includes p l' = true.
Proof.
  intros H1 H2. induction lines as [|line rest IH]; intros ic im l Hin Hp.
  - destruct Hin.
  - destruct (fixLines_cons ic im line rest) as (h & ic' & im' & -> & Hh).
    destruct Hin as [->|Hin].
    + exists h. split; [by left|].
      destruct Hh as [->|[->| ->]]; [done| |];
        by apply includes_app_l, includes_trim.
    + destruct (IH ic' im' l Hin Hp) as (l' & Hin' & Hp').
      exists l'. split; [by right|done].
Qed.

Lemma fixIndentation_includes (p code : jsstring) :
  startsNonWs p = true -> endsNonWs p = true -> noNl p = true ->
  includes p code = true -> includes p (fixIndentation code) = true.
Proof.
  intros H1 H2 H3 Hp. unfold fixIndentation.
  destruct (includes_splitNl _ _ H3 Hp) as (l & Hin & Hl).
  destruct (fixLines_includes p _ H1 H2 false false l Hin Hl) as (l' & Hin' & Hl').
  by apply (includes_joinNl _ l').
Qed.

Lemma ensureImport_includes (code : jsstring) :
  includes (js "from manim import") (ensureImport code) = true.
Proof.
  unfold ensureImport. destruct (includes (js "from manim import") code) eqn:E.
  - exact E.
  - cbn [negb]. by apply includes_app_r.
Qed.

Lemma ensureClass_includes (code : jsstring) :
  includes (js "from manim import") code = true -> includes (js "from manim import") (ensureClass code) = true.
Proof.
  intros H. unfold ensureClass.
  destruct (negb _ || negb _); [|done]. by apply includes_app_r.
Qed.

Lemma cleanManimCode_includes (code : jsstring) :
  includes (js "from manim import") (cleanManimCode code) = true.
Proof.
  unfold cleanManimCode.
  apply fixIndentation_includes; try done.
  apply ensureClass_includes, ensureImport_includes.
Qed.

Lemma inBounds_range (d : N) : inBounds d = true -> 1 <= d <= 300.
Proof.
  unfold inBounds. intros [H1%N.ltb_lt H2%N.leb_le]%andb_prop. lia.
Qed.

Lemma firstDuration_range (patterns : list (jsstring -> option jsstring))
    (response : jsstring) :
  1 <= firstDuration patterns response <= 300.
Proof.
  induction patterns as [|pattern rest IH]; simpl; [lia|].
  destruct (search pattern response) as [ds|]; [|done].
  destruct (truthy ds && inBounds (parseInt ds)) eqn:E; [|done].
  apply andb_prop in E as [_ E]. by apply inBounds_range.
Qed.

Lemma firstDuration_default (patterns : list (jsstring -> option jsstring))
    (response : jsstring) :
  (forall pattern ds, In pattern patterns ->
     search pattern response = Some ds -> inBounds (parseInt ds) = false) ->
  firstDuration patterns response = 10.
Proof.
  induction patterns as [|pattern rest IH]; intros H; simpl; [done|].
  destruct (search pattern response) as [ds|] eqn:E.
  - rewrite (H pattern ds (or_introl eq_refl) E), andb_false_r.
    apply IH. intros q qs Hq. apply H. by right.
  - apply IH. intros q qs Hq. apply H. by right.
Qed.

(** C2: for every raw input the normalizer returns a script that is not
    empty and holds the import line "from manim import", and a duration
    estimate between 1 and 300, which is 10 when no duration pattern finds
    a value above 0 and at most 300 in the text.  [parseGeminiResponse] is
    a total function, so it returns on every input. *)
Theorem parseGeminiResponse_total_wellformed (response : jsstring) :
  let r := parseGeminiResponse response in
  code r <> []
  /\ includes (js "from manim import") (code r) = true
  /\ 1 <= estimatedDuration r <= 300
  /\ ((forall pattern ds, In pattern durationPatterns ->
         search pattern response = Some ds -> inBounds (parseInt ds) = false) ->
      estimatedDuration r = 10).
Proof.
  cbn zeta. unfold parseGeminiResponse. cbn [code estimatedDuration].
  pose proof (cleanManimCode_includes (extractCode response)) as Hinc.
  assert (Ht : truthy (cleanManimCode (extractCode response)) = true)
    by (by apply (includes_truthy (js "from manim import"))).
  rewrite Ht. repeat split.
  - intros E. by rewrite E in Ht.
  - exact Hinc.
  - apply firstDuration_range.
  - apply firstDuration_range.
  - apply firstDuration_default.
Qed.

End NormalizerFacts.

(** ** The quota gate *)

Section QuotaGate.

Import JS Outcome UserModel.
Local Open Scope Z_scope.

Context {ObjectId : Type} `{EqDecision ObjectId}.
Variable newObjectId : jsstring -> outcome ObjectId.

Abbreviation canGenerateVideos := (canGenerateVideos newObjectId).
Abbreviation hasAccount := (hasAccount newObjectId).

(** The index of a plan's maximum complexity in [complexityOrder]. *)
Lemma userMaxComplexity_index (p : SubscriptionPlan) :
  indexOf complexityOrder (maxComplexity (PLAN_LIMITS p)) =
  match p with BASIC => 0 | INTERMEDIATE => 1 | ADVANCED => 2 end.
Proof. by destruct p. Qed.

Lemma userMaxComplexity_nonneg (p : SubscriptionPlan) :
  0 <= indexOf complexityOrder (maxComplexity (PLAN_LIMITS p)).
Proof. rewrite userMaxComplexity_index. destruct p; lia. Qed.

Lemma indexOfFrom_absent (i : Z) (x : jsstring) (l : list jsstring) :
  ~ In x l -> indexOfFrom i x l = -1.
Proof.
  revert i; induction l as [|y l IH]; intros i Hx; simpl; [done|].
  destruct (decide (x = y)) as [->|_].
  - destruct Hx. by left.
  - apply IH. intros Hin. apply Hx. by right.
Qed.

(** The function on an account that exists and is active: the two rules
    on the counter and on the tier, in this order. *)
Lemma canGenerateVideos_active (c : Collection ObjectId)
    (userId complexity : jsstring) (u : IUser ObjectId) :
  hasAccount c userId u -> isActive (subscription u) = true ->
  canGenerateVideos c userId complexity =
  let sub := subscription u in
  if videosGenerated sub >? maxVideosPerMonth sub then Return limitReached
  else if indexOf complexityOrder complexity
          >? indexOf complexityOrder (maxComplexity (PLAN_LIMITS (plan sub)))
  then Return {| canGenerate := false;
                 reason := Some (js "Complexity " ++ complexity
                                 ++ js " not allowed for " ++ planValue (plan sub));
                 videosLeft := None |}
  else Return {| canGenerate := true;
                 reason := None;
                 videosLeft := Some (maxVideosPerMonth sub - videosGenerated sub) |}.
Proof.
  intros (oid & Hoid & Hfind) Hact. unfold UserModel.canGenerateVideos.
  rewrite Hoid. cbn [mbind outcome_bind]. rewrite Hfind, Hact. done.
Qed.

(** C3: for an active account whose counter equals its monthly maximum
    the monthly-limit rule does not fire: the decision is never the
    monthly-limit denial, and it is the permission, with 0 videos left,
    for every tier the plan admits.  When the counter equals the maximum
    plus one the decision is the denial for the monthly limit, with 0
    videos left.  The rule fires on exceeding the limit only. *)
Theorem canGenerateVideos_limit_boundary (c : Collection ObjectId)
    (userId complexity : jsstring) (u : IUser ObjectId) :
  hasAccount c userId u -> isActive (subscription u) = true ->
  let sub := subscription u in
  (videosGenerated sub = maxVideosPerMonth sub ->
     canGenerateVideos c userId complexity <> Return limitReached
     /\ (indexOf complexityOrder complexity
          <= indexOf complexityOrder (maxComplexity (PLAN_LIMITS (plan sub))) ->
         canGenerateVideos c userId complexity =
         Return {| canGenerate := true; reason := None; videosLeft := Some 0 |}))
  /\ (videosGenerated sub = maxVideosPerMonth sub + 1 ->
      canGenerateVideos c userId complexity =
      Return {| canGenerate := false;
                reason := Some (js "Your montly limit has reached!");
                videosLeft := Some 0 |}).
Proof.
  intros Hacc Hact sub.
  rewrite (canGenerateVideos_active c userId complexity u Hacc Hact).
  cbn zeta. fold sub. split.
  - intros Heq. rewrite Heq.
    replace (maxVideosPerMonth sub >? maxVideosPerMonth sub) with false
      by (symmetry; rewrite Z.gtb_ltb; apply Z.ltb_irrefl).
    split.
    + destruct (_ >? _); intros [=].
    + intros Hle.
      replace (_ >? _) with false by (symmetry; rewrite Z.gtb_ltb; apply Z.ltb_ge; lia).
      by rewrite Z.sub_diag.
  - intros Heq. rewrite Heq.
    replace (_ >? _) with true by (symmetry; rewrite Z.gtb_ltb; apply Z.ltb_lt; lia).
    done.
Qed.

(** C4 as the code has it: for an account whose subscription is not
    active the check throws the error "Your subscription is inactive!"
    and returns no decision; for an account that exists and is active it
    throws nothing and returns a decision. *)
Theorem canGenerateVideos_inactive_throws (c : Collection ObjectId)
    (userId complexity : jsstring) (u : IUser ObjectId) :
  hasAccount c userId u ->
  (isActive (subscription u) = false ->
     canGenerateVideos c userId complexity
     = Throw (js "Your subscription is inactive!"))
  /\ (isActive (subscription u) = true ->
      exists d, canGenerateVideos c userId complexity = Return d).
Proof.
  intros Hacc. split; intros Hact.
  - destruct Hacc as (oid & Hoid & Hfind). unfold UserModel.canGenerateVideos.
    rewrite Hoid. cbn [mbind outcome_bind]. by rewrite Hfind, Hact.
  - rewrite (canGenerateVideos_active c userId complexity u Hacc Hact).
    cbn zeta. repeat destruct (_ >? _); by eauto.
Qed.

Lemma startsWith_self_app (p b : jsstring) : startsWith p (p ++ b) = true.
Proof. induction p as [|a p IH]; simpl; [done|]. by rewrite N.eqb_refl. Qed.

Lemma includes_middle (a p b : jsstring) : includes p (a ++ p ++ b) = true.
Proof.
  apply includes_app_l. destruct (p ++ b) eqn:E; simpl; rewrite <- E;
    by rewrite startsWith_self_app.
Qed.

(** C9: the tiers stand in the order basic, intermediate, advanced and
    each plan has its maximum among them.  For an active account whose
    counter does not exceed its maximum: a requested tier above the plan's
    maximum is denied with a reason that names the requested tier and the
    plan; the tier basic is allowed; and every allowed decision carries
    the maximum minus the counter as the number of videos left. *)
Theorem canGenerateVideos_tier_rule (c : Collection ObjectId)
    (userId complexity : jsstring) (u : IUser ObjectId) :
  hasAccount c userId u -> isActive (subscription u) = true ->
  videosGenerated (subscription u) <= maxVideosPerMonth (subscription u) ->
  let sub := subscription u in
  let requested := indexOf complexityOrder complexity in
  let userMax := indexOf complexityOrder (maxComplexity (PLAN_LIMITS (plan sub))) in
  (indexOf complexityOrder (js "basic") < indexOf complexityOrder (js "intermediate")
   /\ indexOf complexityOrder (js "intermediate") < indexOf complexityOrder (js "advanced")
   /\ userMax = match plan sub with BASIC => 0 | INTERMEDIATE => 1 | ADVANCED => 2 end)
  /\ (requested > userMax ->
      exists why,
        canGenerateVideos c userId complexity =
        Return {| canGenerate := false; reason := Some why; videosLeft := None |}
        /\ why = js "Complexity " ++ complexity ++ js " not allowed for "
                 ++ planValue (plan sub)
        /\ includes complexity why = true
        /\ includes (planValue (plan sub)) why = true)
  /\ (complexity = js "basic" ->
      canGenerateVideos c userId complexity =
      Return {| canGenerate := true; reason := None;
                videosLeft := Some (maxVideosPerMonth sub - videosGenerated sub) |})
  /\ (forall d, canGenerateVideos c userId complexity = Return d ->
      canGenerate d = true ->
      videosLeft d = Some (maxVideosPerMonth sub - videosGenerated sub)).
Proof.
  intros Hacc Hact Hle sub requested userMax.
  rewrite (canGenerateVideos_active c userId complexity u Hacc Hact).
  cbn zeta. fold sub requested userMax.
  replace (videosGenerated sub >? maxVideosPerMonth sub) with false
    by (symmetry; rewrite Z.gtb_ltb; apply Z.ltb_ge; exact Hle).
  pose proof (userMaxComplexity_index (plan sub)) as Hmax. fold userMax in Hmax.
  split; [|split; [|split]].
  - split; [done|]. split; [done|exact Hmax].
  - intros Hgt.
    replace (requested >? userMax) with true
      by (symmetry; rewrite Z.gtb_ltb; apply Z.ltb_lt; lia).
    eexists. split; [reflexivity|]. split; [reflexivity|]. split.
    + apply includes_middle.
    + rewrite !app_assoc. rewrite <- (app_nil_r (planValue (plan sub))) at 2.
      apply includes_middle.
  - intros ->. subst requested.
    replace (indexOf complexityOrder (js "basic") >? userMax) with false; [done|].
    symmetry. rewrite Z.gtb_ltb. apply Z.ltb_ge. rewrite Hmax.
    change (indexOf complexityOrder (js "basic")) with 0.
    destruct (plan sub); lia.
  - intros d. destruct (requested >? userMax); intros [= <-]; [done|].
    by intros _.
Qed.

(** C10: for an active account whose counter does not exceed its maximum,
    a complexity that is none of "basic", "intermediate" and "advanced"
    has the index -1 in the order, which is above no plan's maximum, and
    the decision is the permission. *)
Theorem canGenerateVideos_unknown_complexity (c : Collection ObjectId)
    (userId complexity : jsstring) (u : IUser ObjectId) :
  hasAccount c userId u -> isActive (subscription u) = true ->
  videosGenerated (subscription u) <= maxVideosPerMonth (subscription u) ->
  ~ In complexity complexityOrder ->
  let sub := subscription u in
  indexOf complexityOrder complexity = -1
  /\ canGenerateVideos c userId complexity =
     Return {| canGenerate := true; reason := None;
               videosLeft := Some (maxVideosPerMonth sub - videosGenerated sub) |}.
Proof.
  intros Hacc Hact Hle Hnot sub.
  assert (Hidx : indexOf complexityOrder complexity = -1)
    by (by apply indexOfFrom_absent).
  split; [exact Hidx|].
  rewrite (canGenerateVideos_active c userId complexity u Hacc Hact).
  cbn zeta. fold sub. rewrite Hidx.
  replace (videosGenerated sub >? maxVideosPerMonth sub) with false
    by (symmetry; rewrite Z.gtb_ltb; apply Z.ltb_ge; exact Hle).
  pose proof (userMaxComplexity_nonneg (plan sub)).
  replace (-1 >? _) with false
    by (symmetry; rewrite Z.gtb_ltb; apply Z.ltb_ge; lia).
  done.
Qed.

(** A boxed string is no ObjectId: as a filter it selects no document. *)
Lemma matchesId_boxedString (s : jsstring) (u : IUser ObjectId) :
  matchesId (boxedString s) u = false.
Proof. by apply bool_decide_eq_false. Qed.

(** The filter of [increaseVideoCount] matches no document, so the update
    writes nothing. *)
Lemma increaseVideoCount_writes_nothing (c : Collection ObjectId)
    (userId : jsstring) (now : Z) :
  increaseVideoCount c userId now = c.
Proof.
  unfold increaseVideoCount. induction c as [|u c IH]; [done|].
  cbn [updateOne]. by rewrite matchesId_boxedString, IH.
Qed.

End QuotaGate.

(** ** The quota gate and the usage counter on concrete accounts *)

Section QuotaGateEvaluated.

Import JS Outcome UserModel.
Local Open Scope Z_scope.

Lemma sample_hasAccount (generated maxVideos : Z) (active : bool)
    (p : SubscriptionPlan) :
  hasAccount Sample.newObjectId [Sample.account generated maxVideos active p]
    Sample.userId (Sample.account generated maxVideos active p).
Proof. exists Sample.userId. split; reflexivity. Defined.

(** C3 on a basic plan of 5 videos: at 5 the tier basic is allowed with 0
    left, at 6 it is denied for the monthly limit. *)
Lemma canGenerateVideos_limit_boundary_witness :
  canGenerateVideos Sample.newObjectId [Sample.account 5 5 true BASIC]
    Sample.userId (js "basic")
  = Return {| canGenerate := true; reason := None; videosLeft := Some 0 |}
  /\ canGenerateVideos Sample.newObjectId [Sample.account 6 5 true BASIC]
       Sample.userId (js "basic")
     = Return limitReached.
Proof.
  split.
  - destruct (canGenerateVideos_limit_boundary Sample.newObjectId
                [Sample.account 5 5 true BASIC] Sample.userId (js "basic")
                (Sample.account 5 5 true BASIC)
                (sample_hasAccount 5 5 true BASIC) eq_refl) as [H _].
    apply H; [reflexivity|]. vm_compute. discriminate.
  - destruct (canGenerateVideos_limit_boundary Sample.newObjectId
                [Sample.account 6 5 true BASIC] Sample.userId (js "basic")
                (Sample.account 6 5 true BASIC)
                (sample_hasAccount 6 5 true BASIC) eq_refl) as [_ H].
    apply H. reflexivity.
Defined.

(** C4 as stated fails: on an account that is not active the check
    returns no denial, it throws. *)
Lemma canGenerateVideos_inactive_counterexample :
  canGenerateVideos Sample.newObjectId [Sample.account 0 5 false BASIC]
    Sample.userId (js "basic")
  = Throw (js "Your subscription is inactive!")
  /\ ~ (exists d, canGenerateVideos Sample.newObjectId
                    [Sample.account 0 5 false BASIC] Sample.userId (js "basic")
                  = Return d /\ canGenerate d = false).
Proof.
  split; [reflexivity|]. intros (d & Hd & _). vm_compute in Hd. discriminate.
Qed.

Lemma canGenerateVideos_inactive_throws_witness :
  canGenerateVideos Sample.newObjectId [Sample.account 0 5 false BASIC]
    Sample.userId (js "basic")
  = Throw (js "Your subscription is inactive!")
  /\ exists d, canGenerateVideos Sample.newObjectId
                 [Sample.account 0 5 true BASIC] Sample.userId (js "basic")
               = Return d.
Proof.
  split.
  - apply (canGenerateVideos_inactive_throws Sample.newObjectId
             [Sample.account 0 5 false BASIC] Sample.userId (js "basic")
             (Sample.account 0 5 false BASIC)
             (sample_hasAccount 0 5 false BASIC)).
    reflexivity.
  - apply (canGenerateVideos_inactive_throws Sample.newObjectId
             [Sample.account 0 5 true BASIC] Sample.userId (js "basic")
             (Sample.account 0 5 true BASIC)
             (sample_hasAccount 0 5 true BASIC)).
    reflexivity.
Defined.

(** C9 on a basic plan: advanced is denied with the reason
    "Complexity advanced not allowed for basic", basic is allowed with the
    5 videos of the plan left. *)
Lemma canGenerateVideos_tier_rule_witness :
  canGenerateVideos Sample.newObjectId [Sample.account 0 5 true BASIC]
    Sample.userId (js "advanced")
  = Return {| canGenerate := false;
              reason := Some (js "Complexity advanced not allowed for basic");
              videosLeft := None |}
  /\ canGenerateVideos Sample.newObjectId [Sample.account 0 5 true BASIC]
       Sample.userId (js "basic")
     = Return {| canGenerate := true; reason := None; videosLeft := Some 5 |}.
Proof.
  split.
  - destruct (canGenerateVideos_tier_rule Sample.newObjectId
                [Sample.account 0 5 true BASIC] Sample.userId (js "advanced")
                (Sample.account 0 5 true BASIC)
                (sample_hasAccount 0 5 true BASIC) eq_refl)
      as (_ & H & _); [vm_compute; discriminate|].
    destruct H as (why & Hres & Hwhy & _); [reflexivity|].
    rewrite Hres, Hwhy. reflexivity.
  - destruct (canGenerateVideos_tier_rule Sample.newObjectId
                [Sample.account 0 5 true BASIC] Sample.userId (js "basic")
                (Sample.account 0 5 true BASIC)
                (sample_hasAccount 0 5 true BASIC) eq_refl)
      as (_ & _ & H & _); [vm_compute; discriminate|].
    apply H. reflexivity.
Defined.

(** C10 on a basic plan: the complexity "expert" is allowed. *)
Lemma canGenerateVideos_unknown_complexity_witness :
  canGenerateVideos Sample.newObjectId [Sample.account 2 5 true BASIC]
    Sample.userId (js "expert")
  = Return {| canGenerate := true; reason := None; videosLeft := Some 3 |}.
Proof.
  apply (canGenerateVideos_unknown_complexity Sample.newObjectId
           [Sample.account 2 5 true BASIC] Sample.userId (js "expert")
           (Sample.account 2 5 true BASIC)
           (sample_hasAccount 2 5 true BASIC) eq_refl).
  - vm_compute. discriminate.
  - intros [H|[H|[H|[]]]]; vm_compute in H; discriminate.
Defined.

(** C7 on the account of the end-to-end scenario, whose counter is 0: the
    account exists, and after [increaseVideoCount] the collection is what
    it was; the stored counter is 0 and [updatedAt] has not moved. *)
Theorem increaseVideoCount_leaves_counter :
  let c := [Sample.account 0 5 true BASIC] in
  let c' := increaseVideoCount c Sample.userId 1700000060000 in
  hasAccount Sample.newObjectId c Sample.userId (Sample.account 0 5 true BASIC)
  /\ c' = c
  /\ (fun u => videosGenerated (subscription u)) <$> findOne (OidValue Sample.userId) c'
     = Some 0
  /\ updatedAt <$> findOne (OidValue Sample.userId) c' = Some 1700000000000.
Proof.
  cbn zeta. rewrite increaseVideoCount_writes_nothing.
  split; [apply sample_hasAccount|]. repeat split.
Qed.

End QuotaGateEvaluated.

(** ** The render executor *)

Section RenderExecutor.

Import JS Outcome ManimService.

(** A settled promise ignores the handlers that run later. *)
Lemma settled_stays (outputPath : jsstring) (p : promise jsstring)
    (events : list ChildEvent) :
  p <> Pending -> fold_left (onEvent outputPath) events p = p.
Proof.
  revert p; induction events as [|e events IH]; intros p Hp; [done|].
  simpl. rewrite IH.
  - destruct p, e; try done; simpl; by destruct (decide _).
  - destruct p, e; try done; simpl; by destruct (decide _).
Qed.

(** The promise of [runManim] is settled by the first event: fulfilled
    with the output path on exit code 0, rejected with the error of the
    event otherwise. *)
Lemma runManimPromise_first_event (env : Env) (videoId : jsstring)
    (e : ChildEvent) (events : list ChildEvent) :
  runManimPromise env videoId (e :: events) =
  match e with
  | CloseEvent (Some 0%Z) =>
      Fulfilled (path_join (outDir env) (videoId ++ js ".mp4"))
  | CloseEvent _ => Rejected (js "Manim process failed with code")
  | ErrorEvent => Rejected (js "Failed to start manim process")
  | TimerFired => Rejected (js "Video generation timeout")
  end.
Proof.
  unfold runManimPromise. cbn [fold_left]. rewrite settled_stays.
  - destruct e as [[[| |]|]| |]; done.
  - destruct e as [[[| |]|]| |]; done.
Qed.

(** The three courses of [generateVideo]: the write fails; the write
    succeeds and the deletion fails; both succeed.  None of them depends
    on the events of the child. *)
Lemma generateVideo_write_fails (env : Env) (request : VideoGenerationRequest)
    (w : World) (e : jsstring) :
  writeFileError env = Some e ->
  generateVideo env request w =
  ({| videoId := uuid env; status := failed; videoUrl := None; error := Some e |},
   {| files := files w;
      unlinkCalls := unlinkCalls w;
      children := children w;
      console := console w ++ [e] |}).
Proof.
  intros Hw. unfold generateVideo, tryCatch.
  cbn [mbind M_bind mret M_ret]. unfold fs_writeFile. rewrite Hw. done.
Qed.

Lemma generateVideo_unlink_fails (env : Env) (request : VideoGenerationRequest)
    (w : World) (failure : UnlinkFailure) :
  writeFileError env = None -> unlinkError env = Some failure ->
  generateVideo env request w =
  ({| videoId := uuid env; status := failed; videoUrl := None;
      error := Some (unlinkMessage (sourcePath env) failure) |},
   {| files :=
        match failure with
        | FileMissing =>
            delete (sourcePath env) (<[sourcePath env := code request]> (files w))
        | UnlinkRefused _ => <[sourcePath env := code request]> (files w)
        end;
      unlinkCalls := unlinkCalls w ++ [sourcePath env];
      children := children w ++
        [(sourcePath env,
          getQualityFlag (default medium (quality request)),
          path_join (outDir env) (uuid env ++ js ".mp4"))];
      console := console w ++ [unlinkMessage (sourcePath env) failure] |}).
Proof.
  intros Hw Hu. unfold generateVideo, tryCatch.
  cbn [mbind M_bind mret M_ret]. unfold fs_writeFile, runManim, fs_unlink.
  rewrite Hw. cbn [files unlinkCalls children console]. rewrite Hu.
  by destruct failure.
Qed.

Lemma generateVideo_completes (env : Env) (request : VideoGenerationRequest)
    (w : World) :
  writeFileError env = None -> unlinkError env = None ->
  generateVideo env request w =
  ({| videoId := uuid env; status := completed;
      videoUrl := Some (js "/api/videos/" ++ uuid env ++ js ".mp4");
      error := None |},
   {| files := delete (sourcePath env) (<[sourcePath env := code request]> (files w));
      unlinkCalls := unlinkCalls w ++ [sourcePath env];
      children := children w ++
        [(sourcePath env,
          getQualityFlag (default medium (quality request)),
          path_join (outDir env) (uuid env ++ js ".mp4"))];
      console := console w |}).
Proof.
  intros Hw Hu.
  unfold generateVideo, tryCatch, mbind, M_bind, mret, M_ret,
    fs_writeFile, runManim, fs_unlink.
  rewrite Hw, Hu.
  cbv beta iota zeta delta [files unlinkCalls children console].
  fold (sourcePath env). rewrite lookup_insert_eq. done.
Qed.

(** C1 at the renderer's failures: when the child exits with code 1, when
    it fails to start, and when the timer fires first, the promise of
    [runManim] is rejected with the error of that outcome, and
    [generateVideo] returns the status completed with the URL of the
    video. *)
Theorem generateVideo_completed_on_render_failure :
  let run events :=
    let env := Sample.env None None events in
    (runManimPromise env (uuid env) (childEvents env),
     status (generateVideo env Sample.request Sample.emptyWorld).1) in
  run [CloseEvent (Some 1%Z)]
    = (Rejected (js "Manim process failed with code"), completed)
  /\ run [ErrorEvent; CloseEvent None]
    = (Rejected (js "Failed to start manim process"), completed)
  /\ run [TimerFired; CloseEvent None]
    = (Rejected (js "Video generation timeout"), completed).
Proof.
  cbv beta zeta. rewrite !generateVideo_completes by reflexivity.
  repeat split.
Qed.




End RenderExecutor.

(** ** The retrieval URL *)

Section RetrievalUrl.

Import JS Outcome StorageService.

(** Whatever promise the client returns is the promise of [getVideoUrl];
    the empty string is the result only of an error thrown by the call. *)
Lemma getVideoUrl_adopts (client : jsstring -> jsstring -> Z -> ClientCall)
    (bucket videoId userId : jsstring) (expiry : option Z) (p : promise jsstring) :
  client bucket (objectName videoId userId) (default 3600%Z expiry)
    = ReturnsPromise p ->
  getVideoUrl client bucket videoId userId expiry = p.
Proof. unfold getVideoUrl. by intros ->. Qed.

(** C8 at a client whose promise is rejected: the promise of
    [getVideoUrl] is rejected with the client's error; it is not fulfilled
    with the empty string. *)
Theorem getVideoUrl_rejected_by_client :
  getVideoUrl Sample.rejectingClient (js "manim")
    (js "3f2b8c1e-5d4a-4e6f-9a7b-0c1d2e3f4a5b") Sample.userId (Some 700000%Z)
  = Rejected (js "expires param cannot be greater than 7 days")
  /\ getVideoUrl Sample.rejectingClient (js "manim")
       (js "3f2b8c1e-5d4a-4e6f-9a7b-0c1d2e3f4a5b") Sample.userId (Some 700000%Z)
     <> Fulfilled [].
Proof. split; [reflexivity|discriminate]. Qed.

End RetrievalUrl.

(** ** Code extraction and repeated normalization *)

Section CodeExtraction.

Import JS GeminiService.
Local Open Scope N_scope.

Lemma startsWith_prefix (p q s : jsstring) :
  startsWith (p ++ q) s = true -> startsWith p s = true.
Proof.
  revert s; induction p as [|a p IH]; intros s; [done|].
  destruct s as [|c s]; [done|]. simpl.
  intros [-> H]%andb_prop. by rewrite (IH s H).
Qed.

Lemma includes_prefix (p q s : jsstring) :
  includes (p ++ q) s = true -> includes p s = true.
Proof.
  induction s as [|c s IH]; simpl.
  - rewrite !orb_false_r. apply startsWith_prefix.
  - intros [H|H]%orb_prop.
    + by rewrite (startsWith_prefix _ _ _ H).
    + rewrite (IH H). apply orb_true_r.
Qed.

(** The script [parseGeminiResponse] returns is what [cleanManimCode]
    makes of the extracted code. *)
Lemma parseGeminiResponse_code (response : jsstring) :
  code (parseGeminiResponse response) = cleanManimCode (extractCode response).
Proof.
  unfold parseGeminiResponse. cbn [code].
  pose proof (cleanManimCode_includes (extractCode response)) as Hinc.
  by rewrite (includes_truthy (js "from manim import") _ eq_refl Hinc).
Qed.

(** A normalized script has a line that [pythonLines] keeps: the line of
    its import. *)
Lemma pythonLines_normalized (response : jsstring) :
  pythonLines (code (parseGeminiResponse response)) <> [].
Proof.
  rewrite parseGeminiResponse_code.
  pose proof (cleanManimCode_includes (extractCode response)) as Hinc.
  destruct (includes_splitNl (js "from manim import") _ eq_refl Hinc)
    as (l & Hin & Hl).
  assert (Hpy : isPythonLine l = true).
  { unfold isPythonLine.
    change (js "from manim import") with (js "from manim" ++ js " import") in Hl.
    rewrite (includes_prefix _ _ _ Hl). by rewrite !orb_true_r. }
  unfold pythonLines. intros Hnil.
  assert (Hl' : In l (List.filter isPythonLine
                        (splitNl (cleanManimCode (extractCode response)))))
    by (apply filter_In; by split).
  rewrite Hnil in Hl'. destruct Hl'.
Qed.

(** C5 as stated fails.  The answer [Sample.fencedDemo] holds a fenced
    block, and the code extracted from it is not the trimmed content of
    the block but the three lines of it that [pythonLines] keeps.  And
    normalizing twice differs from normalizing once: the empty answer is
    normalized to the fallback script, and the fallback script to six of
    its lines. *)
Lemma extractCode_fence_counterexample :
  extractCode Sample.fencedDemo <> trim Sample.demoScript
  /\ extractCode Sample.fencedDemo = joinNl (pythonLines Sample.fencedDemo)
  /\ length (pythonLines Sample.fencedDemo) = 3%nat
  /\ code (parseGeminiResponse []) = generateFallbackCode
  /\ code (parseGeminiResponse (code (parseGeminiResponse [])))
     <> code (parseGeminiResponse []).
Proof.
  split; [|split; [|split; [|split]]].
  - intros H. apply (f_equal length) in H. vm_compute in H. discriminate.
  - vm_compute. reflexivity.
  - vm_compute. reflexivity.
  - vm_compute. reflexivity.
  - intros H. apply (f_equal length) in H. vm_compute in H. discriminate.
Qed.

(** C5 as the code has it: the extracted code is the result of the fence
    search when that is not empty; only when it is empty are the lines
    used that [pythonLines] keeps, joined by line feeds, and only when
    there is no such line either is the fallback script used.  A
    normalized script always has such a line, so when the fence search
    finds nothing in it, normalizing it again extracts exactly those of
    its lines and never the fallback script. *)
Theorem extractCode_priority (response : jsstring) :
  let fenced := firstCodeMatch codeMatches response in
  (truthy fenced = true -> extractCode response = fenced)
  /\ (truthy fenced = false -> pythonLines response <> [] ->
      extractCode response = joinNl (pythonLines response))
  /\ (truthy fenced = false -> pythonLines response = [] ->
      extractCode response = generateFallbackCode)
  /\ (let normalized := code (parseGeminiResponse response) in
      pythonLines normalized <> []
      /\ (truthy (firstCodeMatch codeMatches normalized) = false ->
          extractCode normalized
          = joinNl (List.filter isPythonLine (splitNl normalized)))).
Proof.
  cbv zeta. unfold extractCode. split; [|split; [|split; [|split]]].
  - by intros ->.
  - intros -> Hne. cbn [negb]. by destruct (pythonLines response).
  - by intros -> ->.
  - apply pythonLines_normalized.
  - intros ->. cbn [negb].
    pose proof (pythonLines_normalized response) as Hne.
    unfold pythonLines in *.
    by destruct (List.filter _ _).
Qed.

(** C2 on an answer whose only duration, 500 seconds, is out of bounds:
    the script is the fallback script and the estimate is the default. *)
Lemma parseGeminiResponse_total_wellformed_witness :
  let r := parseGeminiResponse (js "lasts 500 seconds") in
  code r <> []
  /\ includes (js "from manim import") (code r) = true
  /\ estimatedDuration r = 10.
Proof.
  destruct (parseGeminiResponse_total_wellformed (js "lasts 500 seconds"))
    as (H1 & H2 & _ & H4).
  split; [exact H1|]. split; [exact H2|]. apply H4.
  intros pattern ds [<-|[<-|[<-|[]]]] H; vm_compute in H;
    try discriminate.
  injection H as <-. reflexivity.
Defined.

(** C5 on the answer [Sample.fencedDemo], where the fence search finds
    nothing: the extracted code is the join of its Python-like lines. *)
Lemma extractCode_priority_witness :
  extractCode Sample.fencedDemo = joinNl (pythonLines Sample.fencedDemo).
Proof.
  destruct (extractCode_priority Sample.fencedDemo) as (_ & H & _).
  apply H; [reflexivity|]. vm_compute. discriminate.
Defined.

End CodeExtraction.

(** ** More facts about JavaScript strings: lines and trimming *)

Section LineFacts.

Import JS.
Local Open Scope N_scope.

Lemma joinNl_cons_cons (c : N) (l : jsstring) (ls : list jsstring) :
  joinNl ((c :: l) :: ls) = c :: joinNl (l :: ls).
Proof. by destruct ls. Qed.

(** Splitting at the line feeds and joining with line feeds gives the
    text back. *)
Lemma joinNl_splitNl (s : jsstring) : joinNl (splitNl s) = s.
Proof.
  induction s as [|c s IH]; [done|]. cbn [splitNl].
  destruct (c =? NL) eqn:E.
  - apply N.eqb_eq in E as ->.
    destruct (splitNl_nonempty s) as (l & ls & Hs). rewrite Hs in *.
    cbn [joinNl]. by rewrite <- IH.
  - destruct (splitNl_nonempty s) as (l & ls & Hs). rewrite Hs in *.
    by rewrite joinNl_cons_cons, IH.
Qed.

Lemma splitNl_noNl (s : jsstring) : Forall (fun l => noNl l = true) (splitNl s).
Proof.
  induction s as [|c s IH]; [by repeat constructor|]. cbn [splitNl].
  destruct (c =? NL) eqn:E; [by constructor|].
  destruct (splitNl s) as [|l ls]; [by repeat constructor; cbn; rewrite E|].
  inversion IH as [|? ? Hl Hls]; subst. constructor; [|done].
  unfold noNl in *. cbn. rewrite E. exact Hl.
Qed.

Lemma splitNl_line (l : jsstring) : noNl l = true -> splitNl l = [l].
Proof.
  induction l as [|c l IH]; [done|]. cbn.
  intros [Hc Hl]%andb_prop. apply negb_true_iff in Hc.
  by rewrite Hc, (IH Hl).
Qed.

Lemma splitNl_app_nl (l rest : jsstring) :
  noNl l = true -> splitNl (l ++ NL :: rest) = l :: splitNl rest.
Proof.
  induction l as [|c l IH]; [done|]. cbn.
  intros [Hc Hl]%andb_prop. apply negb_true_iff in Hc.
  by rewrite Hc, (IH Hl).
Qed.

(** Joining lines that hold no line feed and splitting again gives the
    lines back. *)
Lemma splitNl_joinNl (ls : list jsstring) :
  ls <> [] -> Forall (fun l => noNl l = true) ls -> splitNl (joinNl ls) = ls.
Proof.
  induction ls as [|l ls IH]; [done|]. intros _ Hall.
  inversion Hall as [|? ? Hl Hls]; subst.
  destruct ls as [|l' ls]; [by apply splitNl_line|].
  change (joinNl (l :: l' :: ls)) with (l ++ NL :: joinNl (l' :: ls)).
  rewrite (splitNl_app_nl _ _ Hl). by rewrite IH.
Qed.

Lemma trimEnd_prefix (s : jsstring) : exists r, s = trimEnd s ++ r.
Proof.
  induction s as [|c s (r & IH)]; [by exists []|]. cbn [trimEnd].
  destruct (trimEnd s) as [|d t] eqn:E.
  - destruct (isWhiteSpace c); [by exists (c :: s)|].
    exists s. done.
  - exists r. cbn. f_equal. exact IH.
Qed.

Lemma includes_of_trimStart (p s : jsstring) :
  includes p (trimStart s) = true -> includes p s = true.
Proof.
  induction s as [|c s IH]; [done|]. cbn [trimStart].
  destruct (isWhiteSpace c); [|done].
  intros H. by apply includes_cons, IH.
Qed.

Lemma includes_of_trim (p s : jsstring) :
  includes p (trim s) = true -> includes p s = true.
Proof.
  unfold trim. intros H. apply includes_of_trimStart.
  destruct (trimEnd_prefix (trimStart s)) as (r & ->).
  by apply includes_app_r.
Qed.

Lemma includes_skip_ws (p pre s : jsstring) :
  startsNonWs p = true -> forallb isWhiteSpace pre = true ->
  includes p (pre ++ s) = true -> includes p s = true.
Proof.
  intros Hp. induction pre as [|c pre IH]; [done|]. cbn.
  intros [Hc Hpre]%andb_prop [H|H]%orb_prop; [|by apply IH].
  destruct p as [|a p]; [done|]. cbn in H, Hp.
  apply andb_prop in H as [->%N.eqb_eq _]. by rewrite Hc in Hp.
Qed.

Lemma trimStart_skip_ws (pre s : jsstring) :
  forallb isWhiteSpace pre = true -> trimStart (pre ++ s) = trimStart s.
Proof.
  induction pre as [|c pre IH]; [done|]. cbn.
  intros [-> Hpre]%andb_prop. by apply IH.
Qed.

Lemma trimEnd_idem (s : jsstring) : trimEnd (trimEnd s) = trimEnd s.
Proof.
  induction s as [|c s IH]; [done|]. cbn [trimEnd].
  destruct (trimEnd s) as [|d t] eqn:E.
  - destruct (isWhiteSpace c) eqn:Hc; [done|]. cbn. by rewrite Hc.
  - cbn [trimEnd]. cbn [trimEnd] in IH. by rewrite IH.
Qed.

Lemma trimEnd_head (c : N) (s : jsstring) :
  isWhiteSpace c = false -> exists t, trimEnd (c :: s) = c :: t.
Proof.
  intros Hc. cbn [trimEnd]. destruct (trimEnd s); rewrite ?Hc; by eauto.
Qed.

Lemma trimStart_fixed (s : jsstring) :
  trimStart (trimEnd (trimStart s)) = trimEnd (trimStart s).
Proof.
  induction s as [|c s IH]; [done|]. cbn [trimStart].
  destruct (isWhiteSpace c) eqn:Hc; [done|].
  destruct (trimEnd_head c s Hc) as (t & ->). cbn. by rewrite Hc.
Qed.

(** Trimming twice is trimming once. *)
Lemma trim_idem (s : jsstring) : trim (trim s) = trim s.
Proof.
  unfold trim at 1. unfold trim. by rewrite trimStart_fixed, trimEnd_idem.
Qed.

Lemma trim_skip_ws (pre s : jsstring) :
  forallb isWhiteSpace pre = true -> trim (pre ++ trim s) = trim s.
Proof.
  intros Hpre. unfold trim at 1. rewrite (trimStart_skip_ws _ _ Hpre).
  fold (trim (trim s)). apply trim_idem.
Qed.

Lemma forallb_trimStart (f : N -> bool) (s : jsstring) :
  forallb f s = true -> forallb f (trimStart s) = true.
Proof.
  induction s as [|c s IH]; [done|]. cbn [trimStart].
  destruct (isWhiteSpace c); [|done]. cbn. intros [_ H]%andb_prop. by apply IH.
Qed.

Lemma forallb_trimEnd (f : N -> bool) (s : jsstring) :
  forallb f s = true -> forallb f (trimEnd s) = true.
Proof.
  intros H. destruct (trimEnd_prefix s) as (r & E). rewrite E in H.
  rewrite forallb_app in H. by apply andb_prop in H as [H _].
Qed.

Lemma noNl_trim (s : jsstring) : noNl s = true -> noNl (trim s) = true.
Proof. intros H. by apply forallb_trimEnd, forallb_trimStart. Qed.

Lemma length_trimStart (s : jsstring) : (length (trimStart s) <= length s)%nat.
Proof.
  induction s as [|c s IH]; [done|]. cbn [trimStart].
  destruct (isWhiteSpace c); cbn; lia.
Qed.

Lemma length_trimEnd (s : jsstring) : (length (trimEnd s) <= length s)%nat.
Proof.
  destruct (trimEnd_prefix s) as (r & E). rewrite E at 2.
  rewrite length_app. lia.
Qed.

Lemma length_trim (s : jsstring) : (length (trim s) <= length s)%nat.
Proof.
  unfold trim. pose proof (length_trimEnd (trimStart s)).
  pose proof (length_trimStart s). lia.
Qed.

End LineFacts.

(** ** The indentation repair *)

Section IndentationRepair.

Import JS GeminiService.
Local Open Scope N_scope.

(** A search word that begins with a code unit that is not white space is
    found behind an indentation only where the line already held it. *)
Lemma indent_includes (p pre l : jsstring) :
  startsNonWs p = true -> forallb isWhiteSpace pre = true ->
  includes p (pre ++ trim l) = true -> includes p l = true.
Proof.
  intros Hp Hpre H. by apply includes_of_trim, (includes_skip_ws p pre).
Qed.

Lemma indent_includes_eq (p pre l : jsstring) :
  startsNonWs p = true -> endsNonWs p = true ->
  forallb isWhiteSpace pre = true ->
  includes p (pre ++ trim l) = includes p l.
Proof.
  intros H1 H2 Hpre.
  destruct (includes p l) eqn:E.
  - by apply includes_app_l, includes_trim.
  - destruct (includes p (pre ++ trim l)) eqn:E'; [|done].
    by rewrite (indent_includes _ _ _ H1 Hpre E') in E.
Qed.

(** An indented line is a class line only if the line was one. *)
Lemma indent_class_line (pre l : jsstring) :
  forallb isWhiteSpace pre = true ->
  includes (js "class ") l && includes (js "Scene") l = false ->
  includes (js "class ") (pre ++ trim l) && includes (js "Scene") (pre ++ trim l)
  = false.
Proof.
  intros Hpre H.
  destruct (includes (js "class ") (pre ++ trim l)) eqn:E1; [|done].
  destruct (includes (js "Scene") (pre ++ trim l)) eqn:E2; [|done].
  by rewrite (indent_includes (js "class ") _ _ eq_refl Hpre E1),
             (indent_includes (js "Scene") _ _ eq_refl Hpre E2) in H.
Qed.

(** The loop emits each line up to its leading and trailing white space. *)
Lemma fixLines_trim (ic im : bool) (lines : list jsstring) :
  List.map trim (fixLines ic im lines) = List.map trim lines.
Proof.
  revert ic im; induction lines as [|line rest IH]; intros ic im; [done|].
  destruct (fixLines_cons ic im line rest) as (h & ic' & im' & -> & Hh).
  cbn [List.map]. rewrite IH. f_equal.
  destruct Hh as [->|[->| ->]]; [done| |]; by apply trim_skip_ws.
Qed.

Lemma fixLines_length (ic im : bool) (lines : list jsstring) :
  length (fixLines ic im lines) = length lines.
Proof.
  rewrite <- (length_map trim (fixLines ic im lines)), fixLines_trim.
  apply length_map.
Qed.

Lemma fixLines_noNl (ic im : bool) (lines : list jsstring) :
  Forall (fun l => noNl l = true) lines ->
  Forall (fun l => noNl l = true) (fixLines ic im lines).
Proof.
  revert ic im; induction lines as [|line rest IH]; intros ic im Hall;
    [constructor|].
  inversion Hall as [|? ? Hl Hrest]; subst.
  destruct (fixLines_cons ic im line rest) as (h & ic' & im' & -> & Hh).
  constructor; [|by apply IH].
  destruct Hh as [->|[->| ->]]; [done| |];
    unfold noNl; rewrite forallb_app; apply andb_true_intro;
    (split; [done|by apply noNl_trim]).
Qed.

(** The lines of the repaired code are the lines the loop emitted. *)
Lemma splitNl_fixIndentation (code : jsstring) :
  splitNl (fixIndentation code) = fixLines false false (splitNl code).
Proof.
  unfold fixIndentation. apply splitNl_joinNl.
  - intros E. apply (f_equal length) in E. rewrite fixLines_length in E.
    destruct (splitNl_nonempty code) as (l & ls & Hs). by rewrite Hs in E.
  - apply fixLines_noNl, splitNl_noNl.
Qed.

(** X1: the indentation repair changes nothing but white space at the two
    ends of lines: the repaired code has as many lines as the code, and
    each of them is the line of the code up to leading and trailing white
    space. *)
Theorem fixIndentation_only_reindents (code : jsstring) :
  length (splitNl (fixIndentation code)) = length (splitNl code)
  /\ List.map trim (splitNl (fixIndentation code)) = List.map trim (splitNl code).
Proof.
  rewrite splitNl_fixIndentation. split.
  - apply fixLines_length.
  - apply fixLines_trim.
Qed.

(** The loop run on its own output emits that output. *)
Lemma fixLines_idem (ic im : bool) (lines : list jsstring) :
  fixLines ic im (fixLines ic im lines) = fixLines ic im lines.
Proof.
  revert ic im; induction lines as [|line rest IH]; intros ic im; [done|].
  cbn [fixLines].
  destruct (includes (js "class ") line && includes (js "Scene") line) eqn:EA.
  { cbn [fixLines]. by rewrite EA, IH. }
  destruct (includes (js "def construct(self):") line) eqn:EB.
  { cbn [fixLines].
    rewrite (indent_class_line (js "    ") line eq_refl EA).
    rewrite (indent_includes_eq (js "def construct(self):") (js "    ") line
               eq_refl eq_refl eq_refl), EB.
    by rewrite (trim_skip_ws (js "    ") line eq_refl), IH. }
  destruct (im && truthy (trim line)) eqn:EC.
  - destruct (negb (startsWith (js "        ") line)
              && negb (startsWith (js "    def") line)) eqn:ED.
    + cbn [fixLines].
      rewrite (indent_class_line (js "        ") line eq_refl EA).
      rewrite (indent_includes_eq (js "def construct(self):") (js "        ") line
                 eq_refl eq_refl eq_refl), EB.
      rewrite (trim_skip_ws (js "        ") line eq_refl), EC.
      rewrite (startsWith_self_app (js "        ") (trim line)).
      cbn [negb andb]. by rewrite IH.
    + cbn [fixLines]. by rewrite EA, EB, EC, ED, IH.
  - cbn [fixLines]. by rewrite EA, EB, EC, IH.
Qed.

(** X2: the indentation repair is idempotent: repairing repaired code
    changes nothing. *)
Theorem fixIndentation_idempotent (code : jsstring) :
  fixIndentation (fixIndentation code) = fixIndentation code.
Proof.
  unfold fixIndentation at 1. rewrite splitNl_fixIndentation.
  by rewrite fixLines_idem.
Qed.

Lemma fixLines_outside_method (ic : bool) (lines : list jsstring) :
  Forall (fun l => includes (js "def construct(self):") l = false) lines ->
  fixLines ic false lines = lines.
Proof.
  revert ic; induction lines as [|line rest IH]; intros ic Hall; [done|].
  inversion Hall as [|? ? Hl Hrest]; subst. cbn [fixLines]. rewrite Hl.
  cbn [andb]. destruct (_ && _); by rewrite IH.
Qed.

(** X3: code that nowhere holds "def construct(self):" passes the
    indentation repair unchanged. *)
Theorem fixIndentation_without_construct (code : jsstring) :
  includes (js "def construct(self):") code = false ->
  fixIndentation code = code.
Proof.
  intros Hno. unfold fixIndentation.
  rewrite fixLines_outside_method; [apply joinNl_splitNl|].
  apply Forall_forall. intros l Hin%list_elem_of_In.
  destruct (includes (js "def construct(self):") l) eqn:E; [|done].
  rewrite <- (joinNl_splitNl code) in Hno.
  by rewrite (includes_joinNl _ l _ Hin E) in Hno.
Qed.

Lemma fixIndentation_without_construct_witness :
  fixIndentation (js "x = 1" ++ [NL] ++ js "  y = 2")
  = js "x = 1" ++ [NL] ++ js "  y = 2".
Proof. apply fixIndentation_without_construct. reflexivity. Defined.

End IndentationRepair.

(** ** The repaired script, the description and the duration *)

Section NormalizerOutputs.

Import JS GeminiService.
Local Open Scope N_scope.

Lemma includes_skip_free (a : N) (p pre s : jsstring) :
  forallb (fun c => negb (c =? a)) pre = true ->
  includes (a :: p) (pre ++ s) = true -> includes (a :: p) s = true.
Proof.
  induction pre as [|c pre IH]; [done|]. cbn [forallb app].
  intros [Hc Hpre]%andb_prop H. apply IH; [done|].
  cbn [includes] in H. apply orb_prop in H as [H|H]; [|done].
  cbn in H. apply andb_prop in H as [E _].
  rewrite N.eqb_sym in E. by rewrite E in Hc.
Qed.

(** What [ensureImport] puts in front holds neither "c" nor "S", so it
    adds no occurrence of "class " or of "Scene". *)
Lemma ensureImport_class_scene (code : jsstring) :
  includes (js "class ") code && includes (js "Scene") code = false ->
  includes (js "class ") (ensureImport code)
  && includes (js "Scene") (ensureImport code) = false.
Proof.
  intros H. unfold ensureImport.
  destruct (negb (includes (js "from manim import") code)); [|done].
  rewrite app_assoc.
  set (pre := js "from manim import *" ++ [NL; NL]).
  destruct (includes (js "class ") (pre ++ code)) eqn:E1; [|done].
  destruct (includes (js "Scene") (pre ++ code)) eqn:E2; [|done].
  apply (includes_skip_free 99 (js "lass ") pre code eq_refl) in E1.
  apply (includes_skip_free 83 (js "cene") pre code eq_refl) in E2.
  change (99 :: js "lass ") with (js "class ") in E1.
  change (83 :: js "cene") with (js "Scene") in E2.
  by rewrite E1, E2 in H.
Qed.

Lemma ensureClass_structure (code : jsstring) :
  includes (js "class ") (ensureClass code) = true
  /\ includes (js "Scene") (ensureClass code) = true.
Proof.
  unfold ensureClass.
  destruct (includes (js "class ") code) eqn:E1;
    destruct (includes (js "Scene") code) eqn:E2; cbn [negb orb];
    try (split; by apply includes_app_r).
  done.
Qed.

(** X4: for every input the repaired script holds "class" and "Scene",
    and when the input does not hold both "class " and "Scene" it holds
    the synthesized header "class GeneratedAnimation(Scene):" and the
    method "def construct(self):". *)
Theorem cleanManimCode_entry_structure (code : jsstring) :
  includes (js "class") (cleanManimCode code) = true
  /\ includes (js "Scene") (cleanManimCode code) = true
  /\ (includes (js "class ") code && includes (js "Scene") code = false ->
      includes (js "class GeneratedAnimation(Scene):") (cleanManimCode code) = true
      /\ includes (js "def construct(self):") (cleanManimCode code) = true).
Proof.
  unfold cleanManimCode.
  destruct (ensureClass_structure (ensureImport code)) as [Hc Hs].
  split; [|split].
  - apply fixIndentation_includes; try done.
    by apply (includes_prefix (js "class") (js " ")).
  - by apply fixIndentation_includes.
  - intros H%ensureImport_class_scene. unfold ensureClass.
    destruct (includes (js "class ") (ensureImport code));
      destruct (includes (js "Scene") (ensureImport code)); try done;
      cbn [negb orb]; split; apply fixIndentation_includes; try done;
      by apply includes_app_r.
Qed.

Lemma cleanManimCode_entry_structure_witness :
  includes (js "class GeneratedAnimation(Scene):")
    (cleanManimCode (js "self.add(Circle())")) = true
  /\ includes (js "def construct(self):")
       (cleanManimCode (js "self.add(Circle())")) = true.
Proof.
  apply (cleanManimCode_entry_structure (js "self.add(Circle())")).
  reflexivity.
Defined.

Lemma wordChar_not_whiteSpace (c : N) :
  isWordChar c = true -> isWhiteSpace c = false.
Proof.
  unfold isWordChar, isUpper, isLower, isDigit, isWhiteSpace.
  intros H. apply not_true_is_false. intros H'.
  rewrite ?orb_true_iff, ?andb_true_iff, ?N.leb_le, ?N.eqb_eq in H.
  rewrite ?orb_true_iff, ?andb_true_iff, ?N.leb_le, ?N.eqb_eq in H'. lia.
Qed.

Lemma stripNonWord_head (s : jsstring) :
  stripNonWord s = []
  \/ exists c t, stripNonWord s = c :: t /\ isWordChar c = true.
Proof.
  induction s as [|c s IH]; [by left|]. cbn [stripNonWord].
  destruct (isWordChar c) eqn:E; [right; by eauto|done].
Qed.

(** X5: the description has at most 200 code units and no white space at
    its ends, and it is empty or begins with a word character; when no
    line of the answer qualifies it is the fixed text. *)
Theorem extractDescription_shape (response : jsstring) :
  let d := extractDescription response in
  (length d <= 200)%nat
  /\ trim d = d
  /\ (d = [] \/ exists c t, d = c :: t /\ isWordChar c = true)
  /\ (List.find isDescriptionLine (splitNl (trim response)) = None ->
      d = defaultDescription).
Proof.
  cbn zeta. unfold extractDescription.
  set (line := match List.find _ _ with Some l => l | None => _ end).
  split; [|split; [|split]].
  - pose proof (length_trim (take 200 (stripNonWord line))) as H.
    rewrite length_take in H. lia.
  - apply trim_idem.
  - destruct (stripNonWord_head line) as [->|(c & t & -> & Hc)]; [by left|].
    right. cbn [take]. unfold trim. cbn [trimStart].
    pose proof (wordChar_not_whiteSpace c Hc) as Hw. rewrite Hw.
    destruct (trimEnd_head c (take 199 t) Hw) as (t' & ->). by eauto.
  - subst line. intros ->. reflexivity.
Qed.

Lemma extractDescription_shape_witness :
  extractDescription (js "ok") = defaultDescription.
Proof. apply (extractDescription_shape (js "ok")). reflexivity. Defined.

(** Where a matcher reads: what it leaves unread is a tail of the text,
    and a run is the head of the text. *)
Lemma span_spec (f : N -> bool) (s run rest : jsstring) :
  span f s = (run, rest) -> s = run ++ rest /\ forallb f run = true.
Proof.
  revert run rest; induction s as [|c s IH]; intros run rest; cbn [span].
  - by intros [= <- <-].
  - destruct (f c) eqn:E; [|by intros [= <- <-]].
    destruct (span f s) as [run' rest']. intros [= <- <-].
    destruct (IH run' rest' eq_refl) as [-> H]. split; [done|].
    cbn. by rewrite E, H.
Qed.

Lemma eatCI_tail (lit s r : jsstring) :
  eatCI lit s = Some r -> exists pre, s = pre ++ r.
Proof.
  revert s; induction lit as [|a lit IH]; intros s; cbn [eatCI].
  - intros [= ->]. by exists [].
  - destruct s as [|b s]; [done|]. destruct (_ =? _); [|done].
    intros (pre & ->)%IH. by exists (b :: pre).
Qed.

Lemma eat_tail (lit s r : jsstring) :
  eat lit s = Some r -> exists pre, s = pre ++ r.
Proof.
  revert s; induction lit as [|a lit IH]; intros s; cbn [eat].
  - intros [= ->]. by exists [].
  - destruct s as [|b s]; [done|]. destruct (_ =? _); [|done].
    intros (pre & ->)%IH. by exists (b :: pre).
Qed.

Lemma search_tail {A} (m : jsstring -> option A) (s : jsstring) (x : A) :
  search m s = Some x -> exists pre t, s = pre ++ t /\ m t = Some x.
Proof.
  induction s as [|c s IH]; cbn [search].
  - destruct (m []) eqn:E; [|done]. intros [= ->]. by exists [], [].
  - destruct (m (c :: s)) eqn:E.
    + intros [= ->]. by exists [], (c :: s).
    + intros (pre & t & -> & H)%IH. by exists (c :: pre), t.
Qed.

(** A run of digits found behind optional white space. *)
Lemma spaceDigits_spec (r ds : jsstring) :
  spaceDigits r = Some ds ->
  ds <> [] /\ forallb isDigit ds = true /\ exists a b, r = a ++ ds ++ b.
Proof.
  unfold spaceDigits.
  destruct (span isWhiteSpace r) as [ws r1] eqn:E1. cbn [snd].
  destruct (span isDigit r1) as [run rest] eqn:E2.
  destruct run as [|d run]; [done|]. cbn [truthy]. intros [= <-].
  apply span_spec in E1 as [-> _]. apply span_spec in E2 as [-> Hd].
  split; [done|]. split; [done|]. by exists ws, rest.
Qed.

Lemma colonDigits_spec (r ds : jsstring) :
  colonDigits r = Some ds ->
  ds <> [] /\ forallb isDigit ds = true /\ exists a b, r = a ++ ds ++ b.
Proof.
  unfold colonDigits. destruct (eat (js ":") r) as [r1|] eqn:E; [|done].
  intros H. destruct (spaceDigits_spec r1 ds H) as (H1 & H2 & a & b & ->).
  apply eat_tail in E as (pre & ->).
  split; [done|]. split; [done|]. exists (pre ++ a), b. by rewrite <- app_assoc.
Qed.

Lemma durationPatterns_spec (pattern : jsstring -> option jsstring)
    (t ds : jsstring) :
  In pattern durationPatterns -> pattern t = Some ds ->
  ds <> [] /\ forallb isDigit ds = true /\ exists a b, t = a ++ ds ++ b.
Proof.
  intros [<-|[<-|[<-|[]]]].
  - unfold durationPattern1.
    destruct (eatCI (js "duration") t) as [r|] eqn:E1; cbn [from_option].
    + destruct (colonDigits r) as [ds'|] eqn:E2.
      * intros [= <-]. destruct (colonDigits_spec _ _ E2) as (H1 & H2 & a & b & ->).
        apply eatCI_tail in E1 as (pre & ->).
        split; [done|]. split; [done|]. exists (pre ++ a), b.
        by rewrite <- app_assoc.
      * destruct (eatCI (js "time") t) as [r'|] eqn:E3; [|done]. cbn [from_option].
        intros E4. destruct (colonDigits_spec _ _ E4) as (H1 & H2 & a & b & ->).
        apply eatCI_tail in E3 as (pre & ->).
        split; [done|]. split; [done|]. exists (pre ++ a), b.
        by rewrite <- app_assoc.
    + destruct (eatCI (js "time") t) as [r'|] eqn:E3; [|done]. cbn [from_option].
      intros E4. destruct (colonDigits_spec _ _ E4) as (H1 & H2 & a & b & ->).
      apply eatCI_tail in E3 as (pre & ->).
      split; [done|]. split; [done|]. exists (pre ++ a), b.
      by rewrite <- app_assoc.
  - unfold durationPattern2.
    destruct (span isDigit t) as [run rest] eqn:E.
    destruct run as [|d run]; [done|]. cbn [truthy].
    destruct (eatCI _ _); [|done]. intros [= <-].
    apply span_spec in E as [-> Hd].
    split; [done|]. split; [done|]. by exists [], rest.
  - unfold durationPattern3.
    destruct (eatCI (js "take") t) as [r|] eqn:E1; [|done].
    apply eatCI_tail in E1 as (pre & ->).
    destruct (eatCI (js "s") r) as [r'|] eqn:E2; cbn [from_option].
    + destruct (spaceDigits r') as [ds'|] eqn:E3.
      * intros [= <-]. destruct (spaceDigits_spec _ _ E3) as (H1 & H2 & a & b & ->).
        apply eatCI_tail in E2 as (pre' & ->).
        split; [done|]. split; [done|]. exists (pre ++ pre' ++ a), b.
        by rewrite <- !app_assoc.
      * intros E4. destruct (spaceDigits_spec _ _ E4) as (H1 & H2 & a & b & ->).
        split; [done|]. split; [done|]. exists (pre ++ a), b.
        by rewrite <- app_assoc.
    + intros E4. destruct (spaceDigits_spec _ _ E4) as (H1 & H2 & a & b & ->).
      split; [done|]. split; [done|]. exists (pre ++ a), b.
      by rewrite <- app_assoc.
Qed.

Lemma firstDuration_from_text (patterns : list (jsstring -> option jsstring))
    (response : jsstring) :
  (forall pattern, In pattern patterns -> In pattern durationPatterns) ->
  firstDuration patterns response = 10
  \/ exists ds, ds <> [] /\ forallb isDigit ds = true
       /\ includes ds response = true
       /\ firstDuration patterns response = parseInt ds.
Proof.
  induction patterns as [|pattern rest IH]; intros Hsub; [by left|].
  cbn [firstDuration].
  assert (Hrest : forall q, In q rest -> In q durationPatterns)
    by (intros q Hq; apply Hsub; by right).
  destruct (search pattern response) as [ds|] eqn:E; [|by apply IH].
  destruct (truthy ds && inBounds (parseInt ds)); [|by apply IH].
  right. exists ds.
  apply search_tail in E as (pre & t & -> & Ht).
  destruct (durationPatterns_spec pattern t ds (Hsub _ (or_introl eq_refl)) Ht)
    as (H1 & H2 & a & b & ->).
  split; [done|]. split; [done|]. split; [|done].
  rewrite app_assoc. apply includes_middle.
Qed.

(** X6: the duration estimate is the default 10 or the value of a run of
    decimal digits that stands in the answer. *)
Theorem estimatedDuration_from_text (response : jsstring) :
  estimatedDuration (parseGeminiResponse response) = 10
  \/ exists ds, ds <> [] /\ forallb isDigit ds = true
       /\ includes ds response = true
       /\ estimatedDuration (parseGeminiResponse response) = parseInt ds.
Proof.
  unfold parseGeminiResponse. cbn [estimatedDuration].
  by apply firstDuration_from_text.
Qed.

End NormalizerOutputs.

(** ** The request to the generative model *)

Section Generation.

Import JS Outcome GeminiGeneration.
Local Open Scope N_scope.

(** X7: the response of [generateManimCode] says whether the model
    replied.  When it did, [success] is true, the code holds the import
    line, the duration lies between 1 and 300 and there is no error; when
    the call threw, [success] is false, code and description are empty,
    the duration is 0 and the error is set.  The complexity of the request
    is echoed in both cases. *)
Theorem generateManimCode_contract (generateContent : jsstring -> ModelReply)
    (request : ManimCodeRequest) :
  let r := generateManimCode generateContent request in
  responseComplexity r = complexityValue (complexity request)
  /\ (success r = true <->
      exists text, generateContent (fullPrompt request) = Replies text)
  /\ (success r = true ->
      includes (js "from manim import") (code r) = true
      /\ 1 <= estimatedDuration r <= 300
      /\ error r = None)
  /\ (success r = false ->
      code r = [] /\ description r = [] /\ estimatedDuration r = 0
      /\ exists message, error r = Some message).
Proof.
  cbn zeta. unfold generateManimCode.
  destruct (generateContent (fullPrompt request)) as [text|thrown];
    cbn [success code description responseComplexity estimatedDuration error].
  - split; [done|]. split; [split; [by eauto|done]|]. split; [|done].
    intros _. rewrite parseGeminiResponse_code.
    split; [apply cleanManimCode_includes|].
    split; [apply firstDuration_range|done].
  - split; [done|]. split; [split; [done|by intros [? ?]]|]. split; [done|].
    intros _. by eauto.
Qed.

Lemma generateManimCode_contract_witness :
  let request := {| prompt := js "draw a circle"; complexity := basic;
                    userPlan := UserModel.BASIC |} in
  includes (js "from manim import")
    (code (generateManimCode (fun _ => Replies (js "Duration: 12")) request)) = true
  /\ estimatedDuration
       (generateManimCode (fun _ => Replies (js "Duration: 12")) request) = 12
  /\ code (generateManimCode (fun _ => Fails ValueThrown) request) = [].
Proof.
  cbn zeta. split; [|split].
  - apply generateManimCode_contract. reflexivity.
  - reflexivity.
  - apply generateManimCode_contract. reflexivity.
Defined.

(** X8: the text handed to the model holds the prompt of the user, and
    for every complexity and plan it states as the maximum length of the
    animation the [maxDuration] that [PLAN_LIMITS] gives the plan. *)
Theorem fullPrompt_names_request (request : ManimCodeRequest) :
  includes (prompt request) (fullPrompt request) = true
  /\ includes
       (js "- Maximum "
        ++ decimal (Z.to_N (UserModel.maxDuration
                              (UserModel.PLAN_LIMITS (userPlan request))))
        ++ js " seconds animation")
       (fullPrompt request) = true.
Proof.
  split.
  - unfold fullPrompt. do 3 apply includes_app_l.
    apply (includes_middle []).
  - unfold fullPrompt. apply includes_app_r.
    destruct (complexity request), (userPlan request); vm_compute; reflexivity.
Qed.

End Generation.

(** ** The accounts *)

Section Accounts.

Import JS Outcome UserModel.
Local Open Scope Z_scope.

Context {ObjectId : Type} `{EqDecision ObjectId}.
Variable newObjectId : jsstring -> outcome ObjectId.
Variable oidToString : ObjectId -> jsstring.
Variable bcryptHash : jsstring -> Z -> jsstring.

Lemma matchesId_oid (oid : ObjectId) (u : IUser ObjectId) :
  matchesId (OidValue oid) u = bool_decide (_id u = oid).
Proof.
  unfold matchesId. apply bool_decide_ext. split; [by intros [= ->]|by intros ->].
Qed.

(** An update that keeps the ids shows under the id it was asked for,
    and under no other. *)
Lemma findOne_updateOne (v w : IdValue ObjectId)
    (f : IUser ObjectId -> IUser ObjectId) (c : Collection ObjectId) :
  (forall u, _id (f u) = _id u) ->
  findOne w (updateOne v f c)
  = if decide (w = v) then f <$> findOne v c else findOne w c.
Proof.
  intros Hid. unfold findOne.
  induction c as [|u c IH]; [cbn; by destruct (decide _)|].
  cbn [updateOne].
  destruct (matchesId v u) eqn:Ev; cbn [List.find].
  - assert (Hw : matchesId w (f u) = matchesId w u)
      by (unfold matchesId; by rewrite Hid).
    rewrite Hw. destruct (decide (w = v)) as [->|Hne].
    + by rewrite Ev.
    + destruct (matchesId w u) eqn:Ew; [|done].
      unfold matchesId in Ev, Ew.
      apply bool_decide_eq_true in Ev, Ew. congruence.
  - rewrite IH. destruct (decide (w = v)) as [->|Hne].
    + by rewrite Ev.
    + done.
Qed.

Lemma updateOne_no_match (v : IdValue ObjectId)
    (f : IUser ObjectId -> IUser ObjectId) (c : Collection ObjectId) :
  findOne v c = None -> updateOne v f c = c.
Proof.
  unfold findOne. induction c as [|u c IH]; [done|]. cbn [List.find updateOne].
  destruct (matchesId v u); [done|]. intros H. by rewrite IH.
Qed.

(** X9: [updateSubscription] on an account that exists stores the new
    plan with the limit of that plan and makes the account active, keeps
    its counter of generated videos, sets [updatedAt], returns the account
    as it is stored, and leaves the accounts of other ids as they were. *)
Theorem updateSubscription_effect (c : Collection ObjectId) (userId : jsstring)
    (newPlan : SubscriptionPlan) (now : Z) (u : IUser ObjectId) :
  hasAccount newObjectId c userId u ->
  let '(r, c') := updateSubscription newObjectId oidToString c userId newPlan now in
  exists u',
    hasAccount newObjectId c' userId u'
    /\ r = Return (Some (toUserResponse oidToString u'))
    /\ plan (subscription u') = newPlan
    /\ maxVideosPerMonth (subscription u') = limitVideosPerMonth (PLAN_LIMITS newPlan)
    /\ isActive (subscription u') = true
    /\ videosGenerated (subscription u') = videosGenerated (subscription u)
    /\ updatedAt u' = now
    /\ (forall other, other <> _id u ->
        findOne (OidValue other) c' = findOne (OidValue other) c).
Proof.
  intros (oid & Hoid & Hfind). unfold updateSubscription, findById.
  rewrite Hoid, Hfind.
  assert (Hu : _id u = oid).
  { unfold findOne in Hfind. apply find_some in Hfind as [_ Hm].
    rewrite matchesId_oid in Hm. by apply bool_decide_eq_true in Hm. }
  exists (setPlan newPlan now u).
  assert (Hnew : findOne (OidValue oid)
                   (updateOne (OidValue oid) (setPlan newPlan now) c)
                 = Some (setPlan newPlan now u)).
  { rewrite findOne_updateOne by done. rewrite decide_True by done.
    by rewrite Hfind. }
  split; [by exists oid|]. rewrite Hnew. repeat split.
  intros other Hother. rewrite findOne_updateOne by done.
  rewrite decide_False; [done|]. intros [= ->]. by rewrite Hu in Hother.
Qed.

(** X10: after [updateSubscription] the quota gate decides by the new
    plan and the old counter, whether the account was active before or
    not: it denies for the limit when the counter is above the limit of
    the new plan, for the tier when the tier is above the new plan, and
    allows otherwise. *)
Theorem updateSubscription_then_gate (c : Collection ObjectId)
    (userId complexity : jsstring) (newPlan : SubscriptionPlan) (now : Z)
    (u : IUser ObjectId) :
  hasAccount newObjectId c userId u ->
  let c' := (updateSubscription newObjectId oidToString c userId newPlan now).2 in
  let generated := videosGenerated (subscription u) in
  let limit := limitVideosPerMonth (PLAN_LIMITS newPlan) in
  canGenerateVideos newObjectId c' userId complexity =
  if generated >? limit then Return limitReached
  else if indexOf complexityOrder complexity
          >? indexOf complexityOrder (maxComplexity (PLAN_LIMITS newPlan))
  then Return {| canGenerate := false;
                 reason := Some (js "Complexity " ++ complexity
                                 ++ js " not allowed for " ++ planValue newPlan);
                 videosLeft := None |}
  else Return {| canGenerate := true; reason := None;
                 videosLeft := Some (limit - generated) |}.
Proof.
  intros Hacc.
  pose proof (updateSubscription_effect c userId newPlan now u Hacc) as Heff.
  destruct (updateSubscription newObjectId oidToString c userId newPlan now)
    as [r c'] eqn:E.
  destruct Heff as (u' & Hacc' & _ & Hplan & Hmax & Hact & Hgen & _).
  cbn [snd]. cbn zeta.
  rewrite (canGenerateVideos_active newObjectId c' userId complexity u' Hacc' Hact).
  cbn zeta. by rewrite Hplan, Hmax, Hgen.
Qed.

(** X11: [updateSubscription] for an id that names no account returns
    [null], and for a string the driver refuses as an id it throws; the
    collection is the same in both cases. *)
Theorem updateSubscription_no_account (c : Collection ObjectId)
    (userId : jsstring) (newPlan : SubscriptionPlan) (now : Z) :
  (forall oid, newObjectId userId = Return oid ->
     findOne (OidValue oid) c = None ->
     updateSubscription newObjectId oidToString c userId newPlan now
     = (Return None, c))
  /\ (forall e, newObjectId userId = Throw e ->
      updateSubscription newObjectId oidToString c userId newPlan now
      = (Throw e, c)).
Proof.
  split.
  - intros oid Hoid Hnone. unfold updateSubscription.
    by rewrite Hoid, Hnone, updateOne_no_match.
  - intros e He. unfold updateSubscription. by rewrite He.
Qed.

Lemma findByUsername_none (c : Collection ObjectId) (wanted : jsstring) :
  findByUsername c wanted = None -> ~ In wanted (List.map username c).
Proof.
  unfold findByUsername. induction c as [|u c IH]; [by intros _ []|].
  cbn [List.find List.map]. destruct (bool_decide (username u = wanted)) eqn:E;
    [done|].
  apply bool_decide_eq_false in E. intros Hnone [Hin|Hin]; [done|by apply IH].
Qed.

(** X12: [create] keeps the user names of the collection distinct.  When
    it throws the collection is as before; when it returns, one account
    has been appended, under a name no account had. *)
Theorem create_keeps_usernames_distinct (c : Collection ObjectId)
    (userData : NewUser.createUserData) (now : Z)
    (insertOne : InsertResult (ObjectId := ObjectId)) :
  List.NoDup (List.map username c) ->
  let '(r, c') := create oidToString bcryptHash c userData now insertOne in
  List.NoDup (List.map username c')
  /\ (forall e, r = Throw e -> c' = c)
  /\ (forall response, r = Return response ->
      exists u, c' = c ++ [u]
        /\ username u = NewUser.username userData
        /\ ~ In (username u) (List.map username c)).
Proof.
  intros Hnd. unfold create.
  destruct (findByUsername c (NewUser.username userData)) as [existing|] eqn:E.
  { split; [done|]. split; [done|]. by intros ? [=]. }
  apply findByUsername_none in E.
  destruct insertOne as [id|code].
  - split; [|split; [by intros ? [=]|]].
    + rewrite List.map_app. cbn [List.map username].
      apply NoDup_ListNoDup. apply NoDup_ListNoDup in Hnd.
      apply NoDup_app. split; [done|]. split; [|apply NoDup_singleton].
      intros x Hx%list_elem_of_In ->%list_elem_of_singleton. by apply E.
    + intros response _. eexists. split; [reflexivity|]. by split.
  - destruct (decide (code = Some 11000)); (split; [done|]);
      (split; [done|]); by intros ? [=].
Qed.

End Accounts.

(** ** The accounts on concrete collections *)

Section AccountsEvaluated.

Import JS Outcome UserModel.
Local Open Scope Z_scope.

Lemma create_keeps_usernames_distinct_witness :
  List.NoDup
    (List.map username
       (create Sample.oidText Sample.markHash [Sample.account 0 5 true BASIC] Sample.bob
          1700000000000 (Inserted (js "507f1f77bcf86cd799439012"))).2).
Proof.
  pose proof (create_keeps_usernames_distinct Sample.oidText Sample.markHash
                [Sample.account 0 5 true BASIC] Sample.bob
                1700000000000 (Inserted (js "507f1f77bcf86cd799439012"))) as H0.
  destruct (create _ _ _ _ _ _) as [r c']. cbn [snd]. apply H0.
  repeat constructor. intros [].
Defined.

End AccountsEvaluated.

(** ** A new account at the quota gate; signing in *)

Section NewAccounts.

Import JS Outcome UserModel.
Local Open Scope Z_scope.

Context {ObjectId : Type} `{EqDecision ObjectId}.
Variable newObjectId : jsstring -> outcome ObjectId.
Variable oidToString : ObjectId -> jsstring.
Variable bcryptHash : jsstring -> Z -> jsstring.

Lemma find_app_none {A} (f : A -> bool) (l : list A) (x : A) :
  List.find f l = None ->
  List.find f (l ++ [x]) = if f x then Some x else None.
Proof.
  induction l as [|y l IH]; [done|]. cbn [List.find app].
  destruct (f y); [done|]. apply IH.
Qed.

(** X13: when the user name is free and the driver gives the document an
    id that is new, [create] appends an account that holds the hash of the
    password, no generated video and an active subscription, whatever
    counters and activity the input carried.  Its plan is the plan of the
    subscription record given as [plan], and the plan basic when [plan] is
    the name of a plan, a string, whichever plan it names; its limit is
    the limit of that plan.  The quota gate allows this account the tier
    basic at once, with the whole limit left. *)
Theorem create_then_gate (c : Collection ObjectId)
    (userData : NewUser.createUserData) (now : Z) (id : ObjectId) :
  findByUsername c (NewUser.username userData) = None ->
  findOne (OidValue id) c = None ->
  newObjectId (oidToString id) = Return id ->
  let '(r, c') := create oidToString bcryptHash c userData now (Inserted id) in
  let p :=
    match NewUser.plan userData with
    | PlanRecord record => plan record
    | PlanName _ => BASIC
    end in
  exists u,
    c' = c ++ [u]
    /\ r = Return (toUserResponse oidToString u)
    /\ password u = bcryptHash (NewUser.password userData) 12
    /\ subscription u =
       {| plan := p; startDate := now; endDate := None; isActive := true;
          videosGenerated := 0;
          maxVideosPerMonth := limitVideosPerMonth (PLAN_LIMITS p) |}
    /\ canGenerateVideos newObjectId c' (oidToString id) (js "basic") =
       Return {| canGenerate := true; reason := None;
                 videosLeft := Some (limitVideosPerMonth (PLAN_LIMITS p)) |}.
Proof.
  intros Hfree Hnew Hid. unfold create. rewrite Hfree. cbn zeta.
  assert (Hp : default BASIC (planField (NewUser.plan userData))
               = match NewUser.plan userData with
                 | PlanRecord record => plan record
                 | PlanName _ => BASIC
                 end) by (by destruct (NewUser.plan userData)).
  rewrite Hp.
  eexists. split; [reflexivity|]. split; [reflexivity|].
  split; [reflexivity|]. split; [reflexivity|].
  erewrite canGenerateVideos_active; cycle 1.
  - exists id. split; [exact Hid|]. unfold findOne.
    rewrite find_app_none by exact Hnew.
    rewrite matchesId_oid. cbn [_id]. by rewrite bool_decide_eq_true_2.
  - reflexivity.
  - cbn [subscription plan videosGenerated maxVideosPerMonth]. cbn zeta.
    destruct (match NewUser.plan userData with
              | PlanRecord record => plan record
              | PlanName _ => BASIC
              end); reflexivity.
Qed.

End NewAccounts.

Section SigningIn.

Import JS Outcome UserModel AuthService.
Local Open Scope Z_scope.

Context {ObjectId : Type} `{EqDecision ObjectId}.
Variable newObjectId : jsstring -> outcome ObjectId.
Variable oidToString : ObjectId -> jsstring.
Variable bcryptCompare : jsstring -> jsstring -> bool.
Variable jwtSign : TokenPayload -> jsstring -> jsstring.

(** X14: [signin] for a user name that names no account throws "Invalid
    credentials" and writes nothing.  For a user name that names an
    account it returns a token for that account and touches [updatedAt],
    whatever password is given and whatever [bcrypt.compare] says of it:
    the result does not depend on the password. *)
Theorem signin_outcomes (c : Collection ObjectId) (credentials : SigninData)
    (now : Z) :
  (findByUsername c (username credentials) = None ->
     signin newObjectId oidToString bcryptCompare jwtSign c credentials now
     = (Throw (js "Invalid credentials"), c))
  /\ (forall u,
      findByUsername c (username credentials) = Some u ->
      newObjectId (oidToString (_id u)) = Return (_id u) ->
      let c' := updateOne (OidValue (_id u)) (touch now) c in
      signin newObjectId oidToString bcryptCompare jwtSign c credentials now
      = (Return (findById newObjectId oidToString c' (oidToString (_id u)),
                 jwtSign {| userId := oidToString (_id u);
                            tokenUsername := UserModel.username u;
                            plan := UserModel.plan (subscription u) |}
                         (js "7d")),
         c')).
Proof.
  split.
  - intros Hnone. unfold signin. by rewrite Hnone.
  - intros u Hu Hid. unfold signin, updateLastLogin. rewrite Hu. cbn zeta.
    cbn [objectTruthy negb]. by rewrite Hid.
Qed.

End SigningIn.

Section AccountsWitnesses.

Import JS Outcome UserModel.
Local Open Scope Z_scope.

Lemma updateSubscription_effect_witness :
  exists u',
    hasAccount Sample.newObjectId
      (updateSubscription Sample.newObjectId Sample.oidText
         [Sample.account 7 5 false BASIC] Sample.userId ADVANCED 1700000060000).2
      Sample.userId u'
    /\ plan (subscription u') = ADVANCED
    /\ maxVideosPerMonth (subscription u') = 100
    /\ isActive (subscription u') = true
    /\ videosGenerated (subscription u') = 7.
Proof.
  pose proof (updateSubscription_effect Sample.newObjectId Sample.oidText
                [Sample.account 7 5 false BASIC] Sample.userId ADVANCED
                1700000060000 (Sample.account 7 5 false BASIC)
                (sample_hasAccount 7 5 false BASIC)) as H.
  destruct (updateSubscription _ _ _ _ _ _) as [r c'].
  destruct H as (u' & H1 & _ & H2 & H3 & H4 & H5 & _).
  exists u'. cbn [snd]. by repeat split.
Defined.

Lemma updateSubscription_then_gate_witness :
  canGenerateVideos Sample.newObjectId
    (updateSubscription Sample.newObjectId Sample.oidText
       [Sample.account 7 100 false ADVANCED] Sample.userId BASIC 1700000060000).2
    Sample.userId (js "basic")
  = Return limitReached.
Proof.
  apply (updateSubscription_then_gate Sample.newObjectId Sample.oidText
           [Sample.account 7 100 false ADVANCED] Sample.userId (js "basic")
           BASIC 1700000060000 (Sample.account 7 100 false ADVANCED)
           (sample_hasAccount 7 100 false ADVANCED)).
Defined.

Lemma updateSubscription_no_account_witness :
  updateSubscription Sample.newObjectId Sample.oidText
    [Sample.account 0 5 true BASIC] Sample.bobId ADVANCED 1700000060000
  = (Return None, [Sample.account 0 5 true BASIC])
  /\ updateSubscription Sample.newObjectId Sample.oidText
       [Sample.account 0 5 true BASIC] (js "bob") ADVANCED 1700000060000
     = (Throw (js "input must be a 24 character hex string"),
        [Sample.account 0 5 true BASIC]).
Proof.
  split.
  - apply (updateSubscription_no_account Sample.newObjectId Sample.oidText
             [Sample.account 0 5 true BASIC] Sample.bobId ADVANCED 1700000060000)
      with (oid := Sample.bobId); reflexivity.
  - apply (updateSubscription_no_account Sample.newObjectId Sample.oidText
             [Sample.account 0 5 true BASIC] (js "bob") ADVANCED 1700000060000).
    reflexivity.
Defined.

Lemma create_then_gate_witness :
  canGenerateVideos Sample.newObjectId
    (create Sample.oidText Sample.markHash [Sample.account 0 5 true BASIC]
       Sample.bob 1700000000000 (Inserted Sample.bobId)).2
    Sample.bobId (js "basic")
  = Return {| canGenerate := true; reason := None; videosLeft := Some 5 |}.
Proof.
  pose proof (create_then_gate Sample.newObjectId Sample.oidText Sample.markHash
                [Sample.account 0 5 true BASIC] Sample.bob 1700000000000
                Sample.bobId eq_refl eq_refl eq_refl) as H.
  destruct (create _ _ _ _ _ _) as [r c'].
  destruct H as (u & _ & _ & _ & _ & H). exact H.
Defined.

(** Signing in as alice with a password that [bcrypt.compare] refuses. *)
Lemma signin_outcomes_witness :
  exists user,
    (AuthService.signin Sample.newObjectId Sample.oidText Sample.compareNever
       Sample.tokenOf [Sample.account 0 5 true BASIC]
       {| AuthService.username := js "alice";
          AuthService.password := js "not the password" |} 1700000060000).1
    = Return (user, js "jwt.507f1f77bcf86cd799439011.7d").
Proof.
  eexists.
  destruct (signin_outcomes Sample.newObjectId Sample.oidText Sample.compareNever
              Sample.tokenOf [Sample.account 0 5 true BASIC]
              {| AuthService.username := js "alice";
                 AuthService.password := js "not the password" |}
              1700000060000) as [_ H].
  rewrite (H (Sample.account 0 5 true BASIC) eq_refl eq_refl). reflexivity.
Defined.

End AccountsWitnesses.

(** ** The plan a route requires *)

Section RequiredPlan.

Import JS UserModel AuthPlugin.
Local Open Scope Z_scope.

(** X15: [requirePlan] answers 401 to a request without a user, and lets
    a user pass exactly when the quota gate admits, for the plan of the
    user, the complexity named like the required plan; otherwise it
    answers 403. *)
Theorem requirePlan_agrees_with_tiers (requiredPlan : SubscriptionPlan) :
  requirePlan requiredPlan None
  = Sent 401 (js "Unauthorized") (js "Authentication required")
  /\ (forall u,
      (requirePlan requiredPlan (Some u) = NotSent <->
       indexOf complexityOrder (planValue requiredPlan)
       <= indexOf complexityOrder (maxComplexity (PLAN_LIMITS (plan u))))
      /\ (requirePlan requiredPlan (Some u) = NotSent
          \/ exists message,
               requirePlan requiredPlan (Some u)
               = Sent 403 (js "Forbidden") message)).
Proof.
  split; [done|]. intros [uid uname p]. unfold requirePlan. cbn [plan].
  destruct requiredPlan, p; cbn; (split; [split; intros H; try done|]);
    try (vm_compute in H; by destruct H);
    try (by left); right; by eauto.
Qed.

End RequiredPlan.

(** ** The promise of the renderer and the files of the executor *)

Section ExecutorFacts.

Import JS Outcome ManimService.

(** X16: the promise of [runManim] has one outcome.  The first event
    settles it and the events after the first change nothing; it is
    fulfilled exactly when the first event is the exit with code 0, and
    then with the path of the video in the output directory. *)
Theorem runManimPromise_settles_once (env : Env) (videoId : jsstring)
    (e : ChildEvent) (events : list ChildEvent) :
  runManimPromise env videoId (e :: events) = runManimPromise env videoId [e]
  /\ runManimPromise env videoId (e :: events) <> Pending
  /\ (forall p, runManimPromise env videoId (e :: events) = Fulfilled p <->
      e = CloseEvent (Some 0%Z)
      /\ p = path_join (outDir env) (videoId ++ js ".mp4")).
Proof.
  rewrite !runManimPromise_first_event.
  split; [done|]. split.
  - destruct e as [[[| |]|]| |]; done.
  - intros p. destruct e as [[[| |]|]| |]; split;
      try (by intros [[=] _]); try done.
    + by intros [= <-].
    + by intros [_ ->].
Qed.

(** X17: [generateVideo] touches no file but its temporary source file;
    its result carries the id of the job; the status is completed exactly
    when the write and the deletion succeed; and it starts one child, on
    the source file, with the flag of the quality asked for (medium when
    none is) and the output path of the job, when the write succeeds, and
    none when the write fails. *)
Theorem generateVideo_frame (env : Env) (request : VideoGenerationRequest)
    (w : World) :
  let '(r, w') := generateVideo env request w in
  (forall path, path <> sourcePath env -> files w' !! path = files w !! path)
  /\ videoId r = uuid env
  /\ (status r = completed <->
      writeFileError env = None /\ unlinkError env = None)
  /\ children w' =
     children w ++
     match writeFileError env with
     | None =>
         [(sourcePath env,
           getQualityFlag (default medium (quality request)),
           path_join (outDir env) (uuid env ++ js ".mp4"))]
     | Some _ => []
     end.
Proof.
  destruct (writeFileError env) as [e|] eqn:Hw.
  - rewrite (generateVideo_write_fails _ _ _ _ Hw).
    cbn [files children videoId status]. rewrite app_nil_r.
    split; [done|]. split; [done|]. split; [|done].
    split; [done|by intros [[=] _]].
  - destruct (unlinkError env) as [failure|] eqn:Hu.
    + rewrite (generateVideo_unlink_fails _ _ _ _ Hw Hu).
      cbn [files children videoId status].
      split; [|split; [done|split; [|done]]].
      * intros path Hpath.
        destruct failure; by rewrite ?lookup_delete_ne, lookup_insert_ne.
      * split; [done|by intros [_ [=]]].
    + rewrite (generateVideo_completes _ _ _ Hw Hu).
      cbn [files children videoId status].
      split; [|split; [done|split; [|done]]].
      * intros path Hpath. by rewrite lookup_delete_ne, lookup_insert_ne.
      * done.
Qed.

End ExecutorFacts.

(** ** The objects of the store *)

Section StoreFacts.

Import JS Outcome StorageService.

Lemma cut_at_slash (u u' r r' : jsstring) :
  forallb (fun ch => negb (ch =? 47)%N) u = true ->
  forallb (fun ch => negb (ch =? 47)%N) u' = true ->
  u ++ 47%N :: r = u' ++ 47%N :: r' -> u = u' /\ r = r'.
Proof.
  revert u'; induction u as [|a u IH]; intros [|a' u'] Hu Hu' E; cbn in *.
  - by injection E as ->.
  - injection E as <- _. by rewrite N.eqb_refl in Hu'.
  - injection E as -> _. by rewrite N.eqb_refl in Hu.
  - injection E as -> E.
    apply andb_prop in Hu as [_ Hu]. apply andb_prop in Hu' as [_ Hu'].
    destruct (IH u' Hu Hu' E) as [-> ->]. done.
Qed.

(** X18: for user ids without a slash the object key names the pair it
    was built from: two pairs with the same key are the same pair. *)
Theorem objectName_injective (videoId userId videoId' userId' : jsstring) :
  forallb (fun ch => negb (ch =? 47)%N) userId = true ->
  forallb (fun ch => negb (ch =? 47)%N) userId' = true ->
  objectName videoId userId = objectName videoId' userId' ->
  videoId = videoId' /\ userId = userId'.
Proof.
  intros Hu Hu' E. unfold objectName in E.
  apply app_inv_head in E.
  change (js "/" ++ ?x) with (47%N :: x) in E.
  destruct (cut_at_slash _ _ _ _ Hu Hu' E) as [-> E'].
  split; [|done]. by apply app_inv_tail in E'.
Qed.

Lemma objectName_injective_witness :
  js "v1" = js "v1" /\ Sample.userId = Sample.userId.
Proof.
  apply (objectName_injective (js "v1") Sample.userId (js "v1") Sample.userId
           eq_refl eq_refl eq_refl).
Defined.

(** X19: the metadata sent with an upload holds every entry the caller
    gives as given, and besides them the five standard entries, of which
    the caller can replace any. *)
Theorem uploadMetaData_entries (videoId userId createdAt : jsstring)
    (fileSize : N) (metadata : gmap jsstring jsstring) (key : jsstring) :
  let sent := uploadMetaData videoId userId createdAt fileSize metadata in
  (forall value, metadata !! key = Some value -> sent !! key = Some value)
  /\ (metadata !! key = None ->
      sent !! key = standardMetaData videoId userId createdAt fileSize !! key)
  /\ (metadata = ∅ ->
      sent !! js "Content-Type" = Some (js "video/mp4")
      /\ sent !! js "x-amz-meta-user-id" = Some userId
      /\ sent !! js "x-amz-meta-video-id" = Some videoId
      /\ sent !! js "x-amz-meta-created-at" = Some createdAt
      /\ sent !! js "x-amz-meta-file-size" = Some (decimal fileSize)).
Proof.
  cbn zeta. unfold uploadMetaData. split; [|split].
  - intros value Hv. by apply lookup_union_Some_l.
  - intros Hnone. by apply lookup_union_r.
  - intros ->. rewrite (left_id_L ∅ (∪)). unfold standardMetaData.
    repeat split; by simplify_map_eq.
Qed.

Lemma uploadMetaData_entries_witness :
  uploadMetaData (js "v1") Sample.userId (js "2023-11-14T22:13:20.000Z") 2048
    {[ js "Content-Type" := js "video/webm" ]} !! js "Content-Type"
  = Some (js "video/webm").
Proof.
  apply (uploadMetaData_entries (js "v1") Sample.userId
           (js "2023-11-14T22:13:20.000Z") 2048
           {[ js "Content-Type" := js "video/webm" ]} (js "Content-Type")).
  apply lookup_singleton_eq.
Defined.

Variable fsStat : jsstring -> Call Stats.
Variable statObject : jsstring -> jsstring -> Call BucketItemStat.
Variable getObject : jsstring -> jsstring -> Call jsstring.
Variable fPutObject :
  jsstring -> jsstring -> jsstring -> gmap jsstring jsstring -> Call ().
Variable removeObject : jsstring -> jsstring -> Call ().
Variable presignedGetObject : jsstring -> jsstring -> Z -> ClientCall.
Variable bucketName : jsstring.

(** X20: whatever the client answers, the promises of [getVideoStream],
    [getVideoMetadata] and [deleteVideo] are never rejected.  A failure of
    the client, in [statObject] or in [getObject], is the result with
    [success] false, no stream and the error of the client, and [false]
    for [deleteVideo]; when the client succeeds the result carries
    [success] true with the stream and the stat, respectively the fields
    of the stat, and [deleteVideo] gives [true]. *)
Theorem store_lookups_never_reject (videoId userId : jsstring) :
  let object := objectName videoId userId in
  let streamFailed e :=
    {| Download.success := false; Download.stream := None;
       Download.metadata := None; Download.error := Some e |} in
  let metadataFailed e :=
    {| Metadata.success := false; Metadata.size := None;
       Metadata.lastModified := None; Metadata.etag := None;
       Metadata.metadata := None; Metadata.error := Some e |} in
  ((forall e, getVideoStream statObject getObject bucketName videoId userId
              <> Rejected e)
   /\ (forall e, awaited (statObject bucketName object) = Rejected e ->
       getVideoStream statObject getObject bucketName videoId userId
       = Fulfilled (streamFailed e))
   /\ (forall stat e,
       awaited (statObject bucketName object) = Fulfilled stat ->
       awaited (getObject bucketName object) = Rejected e ->
       getVideoStream statObject getObject bucketName videoId userId
       = Fulfilled (streamFailed e))
   /\ (forall stat stream,
       awaited (statObject bucketName object) = Fulfilled stat ->
       awaited (getObject bucketName object) = Fulfilled stream ->
       getVideoStream statObject getObject bucketName videoId userId
       = Fulfilled {| Download.success := true; Download.stream := Some stream;
                      Download.metadata := Some stat; Download.error := None |}))
  /\ ((forall e, getVideoMetadata statObject bucketName videoId userId
                 <> Rejected e)
      /\ (forall e, awaited (statObject bucketName object) = Rejected e ->
          getVideoMetadata statObject bucketName videoId userId
          = Fulfilled (metadataFailed e))
      /\ (forall stat, awaited (statObject bucketName object) = Fulfilled stat ->
          getVideoMetadata statObject bucketName videoId userId
          = Fulfilled {| Metadata.success := true;
                         Metadata.size := Some (statSize stat);
                         Metadata.lastModified := Some (lastModified stat);
                         Metadata.etag := Some (etag stat);
                         Metadata.metadata := Some (metaData stat);
                         Metadata.error := None |}))
  /\ ((forall e, deleteVideo removeObject bucketName videoId userId <> Rejected e)
      /\ (forall e, awaited (removeObject bucketName object) = Rejected e ->
          deleteVideo removeObject bucketName videoId userId = Fulfilled false)
      /\ (deleteVideo removeObject bucketName videoId userId = Fulfilled true <->
          awaited (removeObject bucketName object) = Fulfilled ())).
Proof.
  cbv zeta. unfold getVideoStream, getVideoMetadata, deleteVideo, catching, andThen.
  split; [|split].
  - split; [|split; [|split]].
    + intros e. destruct (awaited (statObject _ _)); try done.
      by destruct (awaited (getObject _ _)).
    + by intros e ->.
    + by intros stat e -> ->.
    + by intros stat stream -> ->.
  - split; [|split].
    + intros e. by destruct (awaited (statObject _ _)).
    + by intros e ->.
    + by intros stat ->.
  - split; [|split].
    + intros e. by destruct (awaited (removeObject _ _)).
    + by intros e ->.
    + destruct (awaited (removeObject _ _)) as [|[]|]; split; done.
Qed.

(** X21: the promise of [uploadVideo] is never rejected either.  A result
    with [success] true carries the object key of the pair and the size of
    the file and no error; a result with [success] false carries an empty
    key, an empty URL, the size 0 and the error. *)
Theorem uploadVideo_result (localFilePath videoId userId createdAt : jsstring)
    (metadata : gmap jsstring jsstring) :
  let upload :=
    uploadVideo fsStat fPutObject presignedGetObject bucketName
      localFilePath videoId userId metadata createdAt in
  (forall e, upload <> Rejected e)
  /\ (forall r, upload = Fulfilled r ->
      if Upload.success r
      then Upload.objectName r = objectName videoId userId
           /\ awaited (fsStat localFilePath)
              = Fulfilled {| size := Upload.size r |}
           /\ Upload.error r = None
      else Upload.objectName r = [] /\ Upload.url r = []
           /\ Upload.size r = 0%N
           /\ exists e, Upload.error r = Some e).
Proof.
  cbn zeta. unfold uploadVideo, catching, andThen.
  destruct (awaited (fsStat localFilePath)) as [|[sz]|e0]; [done| |].
  - destruct (awaited (fPutObject _ _ _ _)) as [| |e1]; [done| |].
    + destruct (getVideoUrl _ _ _ _ _) as [|url|e2]; [done| |].
      * split; [done|]. by intros r [= <-].
      * split; [done|]. intros r [= <-]. cbn. by eauto.
    + split; [done|]. intros r [= <-]. cbn. by eauto.
  - split; [done|]. intros r [= <-]. cbn. by eauto.
Qed.

(** X22: two courses of [uploadVideo] after the object has been put.
    When the promise of the signed URL is rejected, the upload reports
    failure with that error, although the object is in the store; when
    the call for the signed URL throws at once, the upload reports success
    with an empty URL. *)
Theorem uploadVideo_after_put (localFilePath videoId userId createdAt : jsstring)
    (metadata : gmap jsstring jsstring) (stats : Stats) :
  awaited (fsStat localFilePath) = Fulfilled stats ->
  awaited (fPutObject bucketName (objectName videoId userId) localFilePath
             (uploadMetaData videoId userId createdAt (size stats) metadata))
  = Fulfilled () ->
  let upload :=
    uploadVideo fsStat fPutObject presignedGetObject bucketName
      localFilePath videoId userId metadata createdAt in
  (forall e,
     presignedGetObject bucketName (objectName videoId userId) 3600
     = ReturnsPromise (Rejected e) ->
     upload = Fulfilled {| Upload.success := false; Upload.objectName := [];
                           Upload.url := []; Upload.size := 0;
                           Upload.error := Some e |})
  /\ (forall e,
      presignedGetObject bucketName (objectName videoId userId) 3600
      = ThrowsAtCall e ->
      upload = Fulfilled {| Upload.success := true;
                            Upload.objectName := objectName videoId userId;
                            Upload.url := []; Upload.size := size stats;
                            Upload.error := None |}).
Proof.
  intros Hstat Hput. cbn zeta. unfold uploadVideo, catching, andThen.
  rewrite Hstat, Hput. unfold getVideoUrl. cbn [default].
  split; by intros e ->.
Qed.

End StoreFacts.

Section StoreWitnesses.

Import JS Outcome StorageService.

Lemma store_lookups_never_reject_witness :
  getVideoStream Sample.statMissing Sample.getMissing (js "manim") (js "v1")
    Sample.userId
  = Fulfilled {| Download.success := false; Download.stream := None;
                 Download.metadata := None;
                 Download.error := Some (js "Not Found") |}
  /\ deleteVideo Sample.removeOk (js "manim") (js "v1") Sample.userId
     = Fulfilled true.
Proof.
  destruct (store_lookups_never_reject Sample.statMissing Sample.getMissing
              Sample.removeOk (js "manim") (js "v1") Sample.userId)
    as ((_ & Hstream & _) & _ & (_ & _ & Hdelete)).
  split.
  - apply Hstream. reflexivity.
  - apply Hdelete. reflexivity.
Defined.

Lemma uploadVideo_result_witness :
  let upload :=
    uploadVideo Sample.statOk Sample.putOk Sample.rejectingClient (js "manim")
      (js "/srv/api-gateway/out/v1.mp4") (js "v1") Sample.userId ∅
      (js "2023-11-14T22:13:20.000Z") in
  exists r, upload = Fulfilled r
    /\ Upload.success r = false /\ Upload.objectName r = [] /\ Upload.url r = [].
Proof.
  cbn zeta. eexists. split; [reflexivity|]. split; [reflexivity|].
  destruct (uploadVideo_result Sample.statOk Sample.putOk Sample.rejectingClient
              (js "manim") (js "/srv/api-gateway/out/v1.mp4") (js "v1")
              Sample.userId (js "2023-11-14T22:13:20.000Z") ∅) as [_ H].
  destruct (H _ eq_refl) as (H1 & H2 & _). by split.
Defined.

Lemma uploadVideo_after_put_witness :
  uploadVideo Sample.statOk Sample.putOk Sample.rejectingClient (js "manim")
    (js "/srv/api-gateway/out/v1.mp4") (js "v1") Sample.userId ∅
    (js "2023-11-14T22:13:20.000Z")
  = Fulfilled {| Upload.success := false; Upload.objectName := [];
                 Upload.url := []; Upload.size := 0;
                 Upload.error :=
                   Some (js "expires param cannot be greater than 7 days") |}
  /\ uploadVideo Sample.statOk Sample.putOk Sample.throwingPresign (js "manim")
       (js "/srv/api-gateway/out/v1.mp4") (js "v1") Sample.userId ∅
       (js "2023-11-14T22:13:20.000Z")
     = Fulfilled {| Upload.success := true;
                    Upload.objectName := objectName (js "v1") Sample.userId;
                    Upload.url := []; Upload.size := 2048;
                    Upload.error := None |}.
Proof.
  split.
  - destruct (uploadVideo_after_put Sample.statOk Sample.putOk
                Sample.rejectingClient (js "manim")
                (js "/srv/api-gateway/out/v1.mp4") (js "v1") Sample.userId
                (js "2023-11-14T22:13:20.000Z") ∅ {| size := 2048 |}
                eq_refl eq_refl) as [H _].
    apply (H _ eq_refl).
  - destruct (uploadVideo_after_put Sample.statOk Sample.putOk
                Sample.throwingPresign (js "manim")
                (js "/srv/api-gateway/out/v1.mp4") (js "v1") Sample.userId
                (js "2023-11-14T22:13:20.000Z") ∅ {| size := 2048 |}
                eq_refl eq_refl) as [_ H].
    apply (H _ eq_refl).
Defined.

End StoreWitnesses.

(** ** The fence search *)

Section FenceSearch.

Import JS GeminiService.
Local Open Scope N_scope.

Lemma matchAllFrom_literal (skip : nat) (lit s : jsstring) :
  Forall (fun m => m = lit) (matchAllFrom skip lit s).
Proof.
  revert skip; induction s as [|c s IH]; intros skip; [constructor|].
  cbn [matchAllFrom]. destruct skip; [|apply IH].
  destruct (startsWith lit (c :: s)); [constructor; [done|apply IH]|apply IH].
Qed.

(** X23: the fence search gives nothing of the answer: its result is
    empty, or it is the six backquotes of the pattern, which is the case
    exactly when the answer holds two runs of six backquotes one behind
    the other; and then the script returned is the same for every such
    answer, the synthesized skeleton around the six backquotes. *)
Theorem firstCodeMatch_fence_only (response : jsstring) :
  (firstCodeMatch codeMatches response = []
   \/ firstCodeMatch codeMatches response = FENCE)
  /\ (firstCodeMatch codeMatches response = FENCE <->
      (2 <= length (matchAll FENCE response))%nat)
  /\ ((2 <= length (matchAll FENCE response))%nat ->
      code (parseGeminiResponse response) = cleanManimCode FENCE).
Proof.
  assert (Hcases :
    (nth_error (matchAll FENCE response) 1 = None
     /\ firstCodeMatch codeMatches response = [])
    \/ (nth_error (matchAll FENCE response) 1 = Some FENCE
        /\ firstCodeMatch codeMatches response = FENCE)).
  { unfold codeMatches. cbn [firstCodeMatch].
    destruct (nth_error (matchAll FENCE response) 1) as [m|] eqn:E; [|by left].
    right. pose proof (matchAllFrom_literal O FENCE response) as Hall.
    rewrite Forall_forall in Hall.
    apply nth_error_In, list_elem_of_In, Hall in E as ->. done. }
  destruct Hcases as [[Hn Hf]|[Hn Hf]].
  - apply nth_error_None in Hn. rewrite Hf.
    split; [by left|]. split; [split; [done|lia]|lia].
  - assert (Hlen : (2 <= length (matchAll FENCE response))%nat).
    { assert (Hsome : nth_error (matchAll FENCE response) 1 <> None)
        by (by rewrite Hn).
      apply nth_error_Some in Hsome. lia. }
    split; [by right|]. split; [done|]. intros _.
    rewrite parseGeminiResponse_code. unfold extractCode. by rewrite Hf.
Qed.

Lemma firstCodeMatch_fence_only_witness :
  code (parseGeminiResponse (js "``````python x = 1 ``````"))
  = cleanManimCode FENCE.
Proof.
  apply (firstCodeMatch_fence_only (js "``````python x = 1 ``````")).
  vm_compute. lia.
Defined.

End FenceSearch.

(** ** What the quota gate reads *)

Section GateReads.

Import JS Outcome UserModel.
Local Open Scope Z_scope.

Context {ObjectId : Type} `{EqDecision ObjectId}.
Variable newObjectId : jsstring -> outcome ObjectId.

(** The quota gate reads of the collection the subscription of the
    account of the id, and nothing else. *)
Lemma canGenerateVideos_reads_subscription (c1 c2 : Collection ObjectId)
    (userId complexity : jsstring) :
  (forall oid, subscription <$> findOne (OidValue oid) c1
               = subscription <$> findOne (OidValue oid) c2) ->
  canGenerateVideos newObjectId c1 userId complexity
  = canGenerateVideos newObjectId c2 userId complexity.
Proof.
  intros Hsame. unfold canGenerateVideos.
  destruct (newObjectId userId) as [oid|e]; [|done]. cbn [mbind outcome_bind].
  specialize (Hsame oid).
  destruct (findOne (OidValue oid) c1) as [u1|],
           (findOne (OidValue oid) c2) as [u2|]; try done.
  cbn in Hsame. injection Hsame as ->. done.
Qed.

(** X24: a login does not move the quota gate: after [updateLastLogin],
    for whatever id, [canGenerateVideos] answers every request as
    before. *)
Theorem updateLastLogin_keeps_permissions (c : Collection ObjectId)
    (loginId userId complexity : jsstring) (now : Z) :
  canGenerateVideos newObjectId (updateLastLogin newObjectId c loginId now).2
    userId complexity
  = canGenerateVideos newObjectId c userId complexity.
Proof.
  unfold updateLastLogin. destruct (newObjectId loginId) as [lid|e]; [|done].
  cbn [snd]. apply canGenerateVideos_reads_subscription. intros oid.
  rewrite findOne_updateOne by done.
  destruct (decide (OidValue oid = OidValue lid)) as [[= ->]|_]; [|done].
  by destruct (findOne (OidValue lid) c).
Qed.

(** X25: the counter update that follows a job does not move the quota
    gate either: after [incrementUserVideoCount], any number of times,
    [checkVideoPermission] answers as before, so an account the gate
    allows stays allowed with the same number of videos left. *)
Theorem incrementUserVideoCount_keeps_permissions (c : Collection ObjectId)
    (jobIds : list (jsstring * Z)) (userId complexity : jsstring) :
  AuthService.checkVideoPermission newObjectId
    (fold_left (fun c' job => AuthService.incrementUserVideoCount c' job.1 job.2)
       jobIds c)
    userId complexity
  = AuthService.checkVideoPermission newObjectId c userId complexity.
Proof.
  revert c; induction jobIds as [|job jobIds IH]; intros c; [done|].
  cbn [fold_left]. rewrite IH.
  unfold AuthService.incrementUserVideoCount.
  by rewrite increaseVideoCount_writes_nothing.
Qed.

End GateReads.

(** ** Blank answers; accounts the quota gate does not find *)

Section BlankAnswers.

Import JS GeminiService.
Local Open Scope N_scope.

Lemma whiteSpace_not_upper (c : N) : isWhiteSpace c = true -> isUpper c = false.
Proof.
  unfold isUpper, isWhiteSpace. intros H. apply not_true_is_false. intros H'.
  rewrite ?orb_true_iff, ?andb_true_iff, ?N.leb_le, ?N.eqb_eq in H.
  rewrite ?orb_true_iff, ?andb_true_iff, ?N.leb_le, ?N.eqb_eq in H'. lia.
Qed.

Lemma whiteSpace_not_digit (c : N) : isWhiteSpace c = true -> isDigit c = false.
Proof.
  unfold isDigit, isWhiteSpace. intros H. apply not_true_is_false. intros H'.
  rewrite ?orb_true_iff, ?andb_true_iff, ?N.leb_le, ?N.eqb_eq in H.
  rewrite ?orb_true_iff, ?andb_true_iff, ?N.leb_le, ?N.eqb_eq in H'. lia.
Qed.

(** In a text of white space no word is found that begins with another
    code unit. *)
Lemma includes_blank (p s : jsstring) :
  startsNonWs p = true -> forallb isWhiteSpace s = true -> includes p s = false.
Proof.
  intros Hp. destruct p as [|a p]; [done|]. cbn in Hp.
  apply negb_true_iff in Hp.
  induction s as [|c s IH]; [done|]. cbn.
  intros [Hc Hs]%andb_prop. rewrite (IH Hs), orb_false_r.
  destruct (a =? c) eqn:E; [|done].
  apply N.eqb_eq in E as ->. by rewrite Hc in Hp.
Qed.

Lemma eatCI_blank (lit s : jsstring) :
  startsNonWs (toLowerCase lit) = true -> forallb isWhiteSpace s = true ->
  eatCI lit s = None.
Proof.
  destruct lit as [|a lit]; [done|]. cbn [toLowerCase List.map startsNonWs].
  intros Ha%negb_true_iff. destruct s as [|c s]; [done|]. cbn.
  intros [Hc _]%andb_prop.
  unfold lowerChar at 2. rewrite (whiteSpace_not_upper c Hc).
  destruct (lowerChar a =? c) eqn:E; [|done].
  apply N.eqb_eq in E. by rewrite E, Hc in Ha.
Qed.

Lemma search_blank {A} (m : jsstring -> option A) (s : jsstring) :
  (forall t, forallb isWhiteSpace t = true -> m t = None) ->
  forallb isWhiteSpace s = true -> search m s = None.
Proof.
  intros Hm. induction s as [|c s IH]; intros Hs; cbn [search].
  - by rewrite (Hm [] eq_refl).
  - rewrite (Hm _ Hs). cbn in Hs. apply andb_prop in Hs as [_ Hs]. by apply IH.
Qed.

Lemma durationPatterns_blank (pattern : jsstring -> option jsstring)
    (t : jsstring) :
  In pattern durationPatterns -> forallb isWhiteSpace t = true ->
  pattern t = None.
Proof.
  intros [<-|[<-|[<-|[]]]] Ht.
  - unfold durationPattern1.
    by rewrite (eatCI_blank (js "duration") t eq_refl Ht),
               (eatCI_blank (js "time") t eq_refl Ht).
  - unfold durationPattern2. destruct t as [|c t]; [done|]. cbn [span].
    cbn in Ht. apply andb_prop in Ht as [Hc _].
    by rewrite (whiteSpace_not_digit c Hc).
  - unfold durationPattern3. by rewrite (eatCI_blank (js "take") t eq_refl Ht).
Qed.

Lemma matchAllFrom_blank (skip : nat) (s : jsstring) :
  forallb isWhiteSpace s = true -> matchAllFrom skip FENCE s = [].
Proof.
  revert skip; induction s as [|c s IH]; intros skip Hs; [done|].
  cbn [matchAllFrom]. pose proof Hs as Hs'. cbn in Hs'.
  apply andb_prop in Hs' as [Hc Hrest].
  destruct skip; [|by apply IH].
  assert (E : startsWith FENCE (c :: s) = false).
  { change FENCE with (96 :: js "`````"). cbn [startsWith].
    destruct (N.eqb_spec 96 c) as [<-|_]; done. }
  rewrite E. by apply IH.
Qed.

Lemma splitNl_forallb (f : N -> bool) (s : jsstring) :
  forallb f s = true -> Forall (fun l => forallb f l = true) (splitNl s).
Proof.
  induction s as [|c s IH]; [by repeat constructor|]. cbn [forallb splitNl].
  intros [Hc Hs]%andb_prop. specialize (IH Hs).
  destruct (c =? NL); [by constructor|].
  destruct (splitNl s) as [|l ls]; [by repeat constructor; cbn; rewrite Hc|].
  inversion IH as [|? ? Hl Hls]; subst. constructor; [|done].
  cbn. by rewrite Hc, Hl.
Qed.

Lemma pythonLines_blank (s : jsstring) :
  forallb isWhiteSpace s = true -> pythonLines s = [].
Proof.
  intros Hs. unfold pythonLines.
  pose proof (splitNl_forallb _ _ Hs) as Hall.
  induction Hall as [|l ls Hl _ IH]; [done|]. cbn [List.filter].
  unfold isPythonLine at 1.
  by rewrite (includes_blank (js "class ") l eq_refl Hl),
             (includes_blank (js "def construct") l eq_refl Hl),
             (includes_blank (js "from manim") l eq_refl Hl),
             (includes_blank (js "import manim") l eq_refl Hl),
             (includes_blank (js "self.play") l eq_refl Hl),
             (includes_blank (js "self.add") l eq_refl Hl).
Qed.

Lemma trimStart_blank (s : jsstring) :
  forallb isWhiteSpace s = true -> trimStart s = [].
Proof.
  induction s as [|c s IH]; [done|]. cbn.
  intros [-> Hs]%andb_prop. by apply IH.
Qed.

(** X26: an answer that is empty or holds white space only is normalized
    to the fallback script, the fixed description and the default
    duration. *)
Theorem parseGeminiResponse_blank (response : jsstring) :
  forallb isWhiteSpace response = true ->
  parseGeminiResponse response =
  {| code := generateFallbackCode;
     description := defaultDescription;
     estimatedDuration := 10 |}.
Proof.
  intros Hws. unfold parseGeminiResponse.
  assert (Hcode : extractCode response = generateFallbackCode).
  { unfold extractCode, codeMatches. cbn [firstCodeMatch].
    unfold matchAll. rewrite (matchAllFrom_blank O response Hws).
    cbn [nth_error truthy negb]. by rewrite (pythonLines_blank response Hws). }
  assert (Hdesc : extractDescription response = defaultDescription).
  { unfold extractDescription, trim.
    by rewrite (trimStart_blank response Hws). }
  assert (Hdur : firstDuration durationPatterns response = 10).
  { apply firstDuration_default. intros pattern ds Hin Hsearch.
    rewrite search_blank in Hsearch; [done| |done].
    intros t Ht. by apply durationPatterns_blank. }
  rewrite Hcode, Hdesc, Hdur.
  replace (cleanManimCode generateFallbackCode) with generateFallbackCode
    by (vm_compute; reflexivity).
  reflexivity.
Qed.

Lemma parseGeminiResponse_blank_witness :
  parseGeminiResponse (js "   " ++ [NL; 9] ++ js "  ") =
  {| code := generateFallbackCode;
     description := defaultDescription;
     estimatedDuration := 10 |}.
Proof. apply parseGeminiResponse_blank. reflexivity. Defined.

End BlankAnswers.

Section MissingAccounts.

Import JS Outcome UserModel.
Local Open Scope Z_scope.

Context {ObjectId : Type} `{EqDecision ObjectId}.
Variable newObjectId : jsstring -> outcome ObjectId.

(** X27: [canGenerateVideos] returns a decision exactly for an id under
    which the collection holds an account with an active subscription.
    For an id without an account it throws "User not found!", and for a
    string the driver refuses as an id it throws the error of the
    driver. *)
Theorem canGenerateVideos_decides_iff (c : Collection ObjectId)
    (userId complexity : jsstring) :
  ((exists d, canGenerateVideos newObjectId c userId complexity = Return d) <->
   exists u, hasAccount newObjectId c userId u
             /\ isActive (subscription u) = true)
  /\ (forall oid, newObjectId userId = Return oid ->
      findOne (OidValue oid) c = None ->
      canGenerateVideos newObjectId c userId complexity
      = Throw (js "User not found!"))
  /\ (forall e, newObjectId userId = Throw e ->
      canGenerateVideos newObjectId c userId complexity = Throw e).
Proof.
  split; [|split].
  - split.
    + intros [d Hd]. unfold canGenerateVideos in Hd.
      destruct (newObjectId userId) as [oid|e] eqn:Hoid; [|done].
      cbn [mbind outcome_bind] in Hd.
      destruct (findOne (OidValue oid) c) as [u|] eqn:Hfind; [|done].
      destruct (isActive (subscription u)) eqn:Hact; [|done].
      exists u. split; [by exists oid|done].
    + intros (u & Hacc & Hact).
      rewrite (canGenerateVideos_active newObjectId c userId complexity u Hacc Hact).
      cbn zeta. repeat destruct (_ >? _); by eauto.
  - intros oid Hoid Hnone. unfold canGenerateVideos.
    rewrite Hoid. cbn [mbind outcome_bind]. by rewrite Hnone.
  - intros e He. unfold canGenerateVideos. by rewrite He.
Qed.

End MissingAccounts.

Section MissingAccountsWitness.

Import JS Outcome UserModel.

Lemma canGenerateVideos_decides_iff_witness :
  canGenerateVideos Sample.newObjectId [Sample.account 0 5 true BASIC]
    Sample.bobId (js "basic")
  = Throw (js "User not found!")
  /\ canGenerateVideos Sample.newObjectId [Sample.account 0 5 true BASIC]
       (js "bob") (js "basic")
     = Throw (js "input must be a 24 character hex string").
Proof.
  split.
  - apply (canGenerateVideos_decides_iff Sample.newObjectId
             [Sample.account 0 5 true BASIC] Sample.bobId (js "basic"))
      with (oid := Sample.bobId); reflexivity.
  - apply (canGenerateVideos_decides_iff Sample.newObjectId
             [Sample.account 0 5 true BASIC] (js "bob") (js "basic")).
    reflexivity.
Defined.

End MissingAccountsWitness.

(** ** Lower tiers; the temporary file of a job *)

Section LowerTiers.

Import JS Outcome UserModel.
Local Open Scope Z_scope.

Context {ObjectId : Type} `{EqDecision ObjectId}.
Variable newObjectId : jsstring -> outcome ObjectId.

(** X28: the permission goes down the tiers: when [canGenerateVideos]
    allows a complexity, it allows every complexity whose index in the
    order is not higher, an unrecognized one included, with the same
    decision. *)
Theorem canGenerateVideos_lower_tier (c : Collection ObjectId)
    (userId complexity lower : jsstring) (d : Permission) :
  canGenerateVideos newObjectId c userId complexity = Return d ->
  canGenerate d = true ->
  indexOf complexityOrder lower <= indexOf complexityOrder complexity ->
  canGenerateVideos newObjectId c userId lower = Return d.
Proof.
  unfold canGenerateVideos.
  destruct (newObjectId userId) as [oid|e]; [|done]. cbn [mbind outcome_bind].
  destruct (findOne (OidValue oid) c) as [u|]; [|done].
  destruct (negb (isActive (subscription u))); [done|].
  destruct (videosGenerated (subscription u) >? maxVideosPerMonth (subscription u));
    [by intros [= <-]|].
  cbn zeta.
  destruct (indexOf complexityOrder complexity >? _) eqn:E; [by intros [= <-]|].
  intros [= <-] _ Hle.
  replace (indexOf complexityOrder lower >? _) with false; [done|].
  symmetry. rewrite Z.gtb_ltb in *. apply Z.ltb_ge. apply Z.ltb_ge in E. lia.
Qed.

End LowerTiers.

Section LowerTiersWitness.

Import JS Outcome UserModel.

Lemma canGenerateVideos_lower_tier_witness :
  canGenerateVideos Sample.newObjectId [Sample.account 1 20 true INTERMEDIATE]
    Sample.userId (js "basic")
  = Return {| canGenerate := true; reason := None; videosLeft := Some 19%Z |}.
Proof.
  apply (canGenerateVideos_lower_tier Sample.newObjectId
           [Sample.account 1 20 true INTERMEDIATE] Sample.userId
           (js "intermediate") (js "basic")).
  - reflexivity.
  - reflexivity.
  - vm_compute. discriminate.
Defined.

End LowerTiersWitness.

Section TemporaryFile.

Import JS Outcome ManimService.
Local Open Scope N_scope.

Lemma js_injective (s t : string) : js s = js t -> s = t.
Proof.
  revert t; induction s as [|a s IH]; intros [|b t]; cbn; try done.
  intros [= Hab Hst]. f_equal; [|by apply IH].
  rewrite <- (ascii_N_embedding a), <- (ascii_N_embedding b). by rewrite Hab.
Qed.

Lemma decimal_injective (n m : N) : decimal n = decimal m -> n = m.
Proof.
  unfold decimal. intros E%js_injective.
  apply (f_equal NilEmpty.uint_of_string) in E.
  rewrite !NilEmpty.usu in E. injection E as E.
  rewrite <- (DecimalN.Unsigned.of_to n), <- (DecimalN.Unsigned.of_to m).
  by rewrite E.
Qed.

(** X29: the temporary source file of a job is named by the working
    directory and the millisecond of the clock, not by the id of the job:
    in one working directory two jobs have the same temporary file exactly
    when they start in the same millisecond. *)
Theorem sourcePath_same_iff (env1 env2 : Env) :
  cwd env1 = cwd env2 ->
  (sourcePath env1 = sourcePath env2 <-> clock env1 = clock env2).
Proof.
  intros Hcwd. unfold sourcePath, tempDir, path_join. rewrite Hcwd. split.
  - intros E. do 3 apply app_inv_head in E.
    apply app_inv_tail in E. by apply decimal_injective.
  - by intros ->.
Qed.

Lemma sourcePath_same_iff_witness :
  sourcePath (Sample.env None None [])
  = sourcePath
      {| cwd := js "/srv/api-gateway";
         uuid := js "00000000-0000-4000-8000-000000000000";
         clock := 1700000000000;
         writeFileError := None; unlinkError := None; childEvents := [] |}.
Proof.
  apply (sourcePath_same_iff (Sample.env None None [])
           {| cwd := js "/srv/api-gateway";
              uuid := js "00000000-0000-4000-8000-000000000000";
              clock := 1700000000000;
              writeFileError := None; unlinkError := None; childEvents := [] |}
           eq_refl).
  reflexivity.
Defined.

End TemporaryFile.

(** ** Signing up *)

Section SigningUp.

Import JS Outcome UserModel AuthService.
Local Open Scope Z_scope.

Context {ObjectId : Type} `{EqDecision ObjectId}.
Variable oidToString : ObjectId -> jsstring.
Variable bcryptHash : jsstring -> Z -> jsstring.
Variable jwtSign : TokenPayload -> jsstring -> jsstring.

(** X30: [signup] with the plan given by name, as the route gives it, or
    with no plan, creates an account of the plan basic with 5 videos a
    month, whichever plan is named, and signs a token that carries the
    plan basic; for a user name that is taken it throws the error of
    [create] and writes nothing. *)
Theorem signup_stores_basic (c : Collection ObjectId)
    (userData : Signup.SignupData) (now : Z) (id : ObjectId) :
  (forall record, Signup.plan userData <> Some (PlanRecord record)) ->
  (findByUsername c (Signup.username userData) = None ->
     exists u,
       signup oidToString bcryptHash jwtSign c userData now (Inserted id)
       = (Return (toUserResponse oidToString u,
                  jwtSign {| userId := oidToString id;
                             tokenUsername := Signup.username userData;
                             plan := BASIC |} (js "7d")),
          c ++ [u])
       /\ _id u = id
       /\ UserModel.plan (subscription u) = BASIC
       /\ maxVideosPerMonth (subscription u) = 5
       /\ videosGenerated (subscription u) = 0
       /\ isActive (subscription u) = true)
  /\ (forall existing insertOne,
      findByUsername c (Signup.username userData) = Some existing ->
      signup oidToString bcryptHash jwtSign c userData now insertOne
      = (Throw (js "User with this username already exists"), c)).
Proof.
  intros Hname. split.
  - intros Hfree. unfold signup, create. cbn [NewUser.username]. rewrite Hfree.
    cbn zeta. cbn [NewUser.plan NewUser.password NewUser.name].
    assert (Hplan : planField (planOrBasic (Signup.plan userData)) = None).
    { destruct (Signup.plan userData) as [[record|planName]|]; cbn.
      - by destruct (Hname record).
      - by destruct (truthy planName).
      - done. }
    rewrite Hplan. cbn [default].
    eexists. split; [reflexivity|]. by repeat split.
  - intros existing insertOne Htaken. unfold signup, create.
    cbn [NewUser.username]. by rewrite Htaken.
Qed.

End SigningUp.

Section SigningUpWitness.

Import JS Outcome UserModel AuthService.
Local Open Scope Z_scope.

(** Signing up as carol for the plan advanced. *)
Lemma signup_stores_basic_witness :
  exists u,
    (signup Sample.oidText Sample.markHash Sample.tokenOf
       [Sample.account 0 5 true BASIC]
       {| Signup.username := js "carol"; Signup.password := js "secret";
          Signup.name := js "Carol";
          Signup.plan := Some (PlanName (js "advanced")) |}
       1700000000000 (Inserted Sample.bobId)).2
    = [Sample.account 0 5 true BASIC] ++ [u]
    /\ UserModel.plan (subscription u) = BASIC
    /\ maxVideosPerMonth (subscription u) = 5.
Proof.
  destruct (signup_stores_basic Sample.oidText Sample.markHash Sample.tokenOf
              [Sample.account 0 5 true BASIC]
              {| Signup.username := js "carol"; Signup.password := js "secret";
                 Signup.name := js "Carol";
                 Signup.plan := Some (PlanName (js "advanced")) |}
              1700000000000 Sample.bobId) as [H _]; [by intros record|].
  destruct (H eq_refl) as (u & Hs & _ & Hp & Hm & _).
  exists u. rewrite Hs. by repeat split.
Defined.

End SigningUpWitness.
